(** * PriceMachine: the normalisation-and-search engine of [Project.py]

    A shallow embedding of the class [PriceMachine] (loading of price
    lists, field resolution by column name, numeric coercion, ranking by
    price per unit of weight, search and full export ordering), together
    with the parts of the Python run time the class relies on: [str]
    methods, [float], [round], [re.search], [list.sort] and the rows of
    [csv.DictReader]. *)

From Stdlib Require Import ZArith NArith List Bool String Ascii Lia.
From Stdlib Require Import Sorted Permutation.
From Stdlib Require Import Floats.SpecFloat.
Import ListNotations.

Local Open Scope N_scope.

(** ** Python text

    A Python [str] is a sequence of Unicode code points. *)

Definition str := list N.

Module Utf8.

(** Source literals are written as UTF-8 byte strings and decoded once. *)
Fixpoint decode (bs : list N) : str :=
  match bs with
  | [] => []
  | b0 :: r0 =>
    if b0 <? 128 then b0 :: decode r0 else
    match r0 with
    | [] => [b0]
    | b1 :: r1 =>
      if b0 <? 224 then ((b0 - 192) * 64 + (b1 - 128)) :: decode r1 else
      match r1 with
      | [] => [b0; b1]
      | b2 :: r2 =>
        if b0 <? 240
        then ((b0 - 224) * 4096 + (b1 - 128) * 64 + (b2 - 128)) :: decode r2
        else
          match r2 with
          | [] => [b0; b1; b2]
          | b3 :: r3 =>
            ((b0 - 240) * 262144 + (b1 - 128) * 4096
             + (b2 - 128) * 64 + (b3 - 128)) :: decode r3
          end
      end
    end
  end.

Definition bytes (s : string) : list N :=
  map N_of_ascii (list_ascii_of_string s).

End Utf8.

(** [u "..."] is the Python string written between the quotes. *)
Definition u (s : string) : str := Utf8.decode (Utf8.bytes s).

Module Str.

(** [str.isspace] for one code point: the Unicode white space. *)
Definition isspace (c : N) : bool :=
  ((9 <=? c) && (c <=? 13)) || ((28 <=? c) && (c <=? 32))
  || (c =? 133) || (c =? 160) || (c =? 5760)
  || ((8192 <=? c) && (c <=? 8202))
  || (c =? 8232) || (c =? 8233) || (c =? 8239) || (c =? 8287)
  || (c =? 12288).

(** [s] without the leading characters that satisfy [space]. *)
Fixpoint lstrip_by (space : N -> bool) (s : str) : str :=
  match s with
  | [] => []
  | c :: s' => if space c then lstrip_by space s' else s
  end.

(** [s] without the leading and trailing characters that satisfy
    [space]. *)
Definition strip_by (space : N -> bool) (s : str) : str :=
  rev (lstrip_by space (rev (lstrip_by space s))).

(** [s.strip()] *)
Definition strip (s : str) : str := strip_by isspace s.

(** [s.replace(a, b)] for one-character [a] and [b]. *)
Definition replace (a b : N) (s : str) : str :=
  map (fun c => if c =? a then b else c) s.

(** Lower-case mapping of one code point.  It covers Basic Latin, the
    Latin-1 letters and the Cyrillic capitals U+0400..U+042F; every
    other code point is left as it is.  (The only characters outside
    these whose lower case in Python has an ASCII letter are U+0130
    and U+212A: the tests [in 'exit'] and ['price' in] come out the
    same.) *)
Definition lower_cp (c : N) : N :=
  if (65 <=? c) && (c <=? 90) then c + 32
  else if (192 <=? c) && (c <=? 222) && negb (c =? 215) then c + 32
  else if (1040 <=? c) && (c <=? 1071) then c + 32
  else if (1024 <=? c) && (c <=? 1039) then c + 80
  else c.

(** [s.lower()] *)
Definition lower (s : str) : str := map lower_cp s.

Definition eqb (a b : str) : bool :=
  if list_eq_dec N.eq_dec a b then true else false.

Fixpoint startswith (s p : str) : bool :=
  match p, s with
  | [], _ => true
  | _ :: _, [] => false
  | a :: p', c :: s' => (a =? c) && startswith s' p'
  end.

Definition endswith (s p : str) : bool := startswith (rev s) (rev p).

(** [p in s]: [p] occurs in [s] as a contiguous run. *)
Fixpoint contains (s p : str) : bool :=
  startswith s p ||
  match s with
  | [] => false
  | _ :: s' => contains s' p
  end.

End Str.

(** ** Python floats

    A [float] is an IEEE 754 binary64 number; [spec_float] is the
    Standard Library's executable specification of them. *)

Local Open Scope Z_scope.

Definition float := spec_float.

Module Float.

Definition prec : Z := 53.
Definition emax : Z := 1024.

Definition is_zero (x : float) : bool :=
  match x with S754_zero _ => true | _ => false end.

Definition is_nan (x : float) : bool :=
  match x with S754_nan => true | _ => false end.

Definition is_finite (x : float) : bool :=
  match x with S754_zero _ | S754_finite _ _ _ => true | _ => false end.

Definition ltb (x y : float) : bool := SFltb x y.
Definition leb (x y : float) : bool := SFleb x y.
Definition eqb (x y : float) : bool := SFeqb x y.

Definition zero : float := S754_zero false.

(** The double nearest to [m * 10^k], with the sign [neg]: what a
    correctly rounded decimal-to-binary conversion returns. *)
Definition of_decimal (neg : bool) (m : Z) (k : Z) : float :=
  match m with
  | Zpos p =>
    if 0 <=? k
    then binary_normalize prec emax
           ((if neg then - m else m) * 10 ^ k) 0 false
    else SFdiv prec emax (S754_finite neg p 0)
                         (S754_finite false (Z.to_pos (10 ^ (- k))) 0)
  | _ => S754_zero neg
  end.

(** *** [float(s)] *)

(** The code points of the digit zero in the scripts that have
    decimal digits (Unicode 14); the nine that follow each are its
    digits 1 to 9. *)
Definition zeros : list N :=
  [48; 1632; 1776; 1984; 2406; 2534; 2662; 2790; 2918; 3046; 3174; 3302;
   3430; 3558; 3664; 3792; 3872; 4160; 4240; 6112; 6160; 6470; 6608; 6784;
   6800; 6992; 7088; 7232; 7248; 42528; 43216; 43264; 43472; 43504; 43600;
   44016; 65296; 66720; 68912; 69734; 69872; 69942; 70096; 70384; 70736;
   70864; 71248; 71360; 71472; 71904; 72016; 72784; 73040; 73120; 92768;
   92864; 93008; 120782; 120792; 120802; 120812; 120822; 123200; 123632;
   125264; 130032]%N.

(** The value of a decimal digit, of any script. *)
Definition digit_value (c : N) : option N :=
  match find (fun z => (z <=? c) && (c <=? z + 9))%N zeros with
  | Some z => Some (c - z)%N
  | None => None
  end.

Definition is_digit (c : N) : bool :=
  match digit_value c with Some _ => true | None => false end.

(** The white space [float] ignores around a number: the Unicode
    white space but the four separators U+001C..U+001F. *)
Definition is_space (c : N) : bool :=
  (Str.isspace c && negb ((28 <=? c) && (c <=? 31)))%N.

(** An underscore is accepted only between two digits. *)
Fixpoint underscores_ok (prev_digit : bool) (s : str) : bool :=
  match s with
  | [] => true
  | c :: s' =>
    if (c =? 95)%N then
      prev_digit &&
      match s' with
      | d :: _ => is_digit d
      | [] => false
      end && underscores_ok false s'
    else underscores_ok (is_digit c) s'
  end.

Definition drop_underscores (s : str) : str :=
  filter (fun c => negb (c =? 95)%N) s.

(** The leading run of decimal digits of [s], read as a number that
    continues [acc], with the count of digits read and the rest. *)
Fixpoint digits (acc : Z) (n : Z) (s : str) : Z * Z * str :=
  match s with
  | c :: s' =>
    match digit_value c with
    | Some d => digits (10 * acc + Z.of_N d) (n + 1) s'
    | None => (acc, n, s)
    end
  | [] => (acc, n, s)
  end.

Definition sign (s : str) : bool * str :=
  match s with
  | c :: s' =>
    if (c =? 45)%N then (true, s')
    else if (c =? 43)%N then (false, s')
    else (false, s)
  | [] => (false, s)
  end.

(** The exponent part: empty, or [e] or [E], an optional sign and at
    least one digit up to the end of the text. *)
Definition exponent (s : str) : option Z :=
  match s with
  | [] => Some 0
  | c :: s' =>
    if ((c =? 101) || (c =? 69))%N then
      let '(neg, s'') := sign s' in
      match digits 0 0 s'' with
      | (e, n, []) => if 0 <? n then Some (if neg then - e else e) else None
      | _ => None
      end
    else None
  end.

(** A decimal literal without sign: digits, an optional point and
    fraction, an optional exponent; at least one digit in all. *)
Definition decimal (neg : bool) (s : str) : option float :=
  let '(i, ni, s1) := digits 0 0 s in
  let '(m, nf, s2) :=
    match s1 with
    | c :: s1' => if (c =? 46)%N then digits i 0 s1' else (i, 0, s1)
    | [] => (i, 0, s1)
    end in
  if 0 <? ni + nf then
    match exponent s2 with
    | Some e => Some (of_decimal neg m (e - nf))
    | None => None
    end
  else None.

(** [float(s)], [None] standing for [ValueError].  White space around
    the number is ignored; [inf], [infinity] and [nan] are read in any
    letter case. *)
Definition of_str (s : str) : option float :=
  let '(neg, s1) := sign (Str.strip_by is_space s) in
  let w := Str.lower s1 in
  if Str.eqb w (u "inf") || Str.eqb w (u "infinity")
  then Some (S754_infinity neg)
  else if Str.eqb w (u "nan") then Some S754_nan
  else if underscores_ok false s1
  then decimal neg (drop_underscores s1)
  else None.

(** *** [x / y] *)

Definition div (x y : float) : float := SFdiv prec emax x y.

(** *** [round(x, 2)]

    The exact value of [x] is rounded to the nearest multiple of
    1/100, a tie going to the even one, and the decimal obtained is
    converted back to the nearest double.  Zeros, infinities and NaN
    are returned as they are. *)
Definition hundredths (m : positive) (e : Z) : Z :=
  if 0 <=? e then Zpos m * 2 ^ e * 100
  else
    let d := 2 ^ (- e) in
    let q := (Zpos m * 100) / d in
    let r := (Zpos m * 100) mod d in
    match 2 * r ?= d with
    | Lt => q
    | Gt => q + 1
    | Eq => if Z.even q then q else q + 1
    end.

Definition round2 (x : float) : float :=
  match x with
  | S754_finite s m e => of_decimal s (hundredths m e) (-2)
  | _ => x
  end.

End Float.

Local Open Scope N_scope.

(** ** Regular expressions

    To the program, Python's [re] is an engine: it takes a pattern and
    either refuses it ([re.error]) or tells of every text whether the
    pattern is found in it, letter case ignored.  The program and its
    general properties are stated for any engine.

    The module [Re] spells out what an engine does on the patterns
    made of literal characters, [.], alternation, groups and the
    quantifiers [*], [+] and [?], which include the three patterns of
    the program; the examples are run with it. *)

Definition regex_engine : Type := str -> option (str -> bool).

Module Re.

Inductive regex : Type :=
| Empty
| Eps
| Chr (c : N)
| Any
| Cat (r1 r2 : regex)
| Alt (r1 r2 : regex)
| Star (r : regex).

(** The result of compiling a pattern.  [Unsupported] marks the
    syntax this development gives no meaning to: character classes,
    counted repetition, anchors, letter and digit escapes, [(?...)]
    extensions, lazy and possessive quantifiers. *)
Inductive compiled : Type :=
| Compiled (r : regex)
| Malformed
| Unsupported.

(** One open group while parsing: the branches already closed by a
    [|] and the items of the branch being read, both latest first;
    an item carries whether it is already quantified. *)
Record frame : Type := Frame {
  alts : list regex;
  items : list (regex * bool)
}.

Definition seq_of (its : list (regex * bool)) : regex :=
  fold_left (fun acc it => Cat (fst it) acc) its Eps.

Definition close (f : frame) : regex :=
  fold_left (fun acc a => Alt a acc) (alts f) (seq_of (items f)).

Definition push (f : frame) (r : regex) : frame :=
  Frame (alts f) ((r, false) :: items f).

Definition quantify (q : N) (r : regex) : regex :=
  if q =? 42 then Star r
  else if q =? 43 then Cat r (Star r)
  else Alt r Eps.

Definition is_quantifier (c : N) : bool :=
  (c =? 42) || (c =? 43) || (c =? 63).

Definition is_ascii_alnum (c : N) : bool :=
  ((48 <=? c) && (c <=? 57)) || ((65 <=? c) && (c <=? 90))
  || ((97 <=? c) && (c <=? 122)).

Fixpoint parse (s : str) (cur : frame) (stack : list frame) : compiled :=
  match s with
  | [] =>
    match stack with
    | [] => Compiled (close cur)
    | _ :: _ => Malformed
    end
  | c :: s' =>
    if c =? 40 then
      match s' with
      | d :: _ =>
        if d =? 63 then Unsupported else parse s' (Frame [] []) (cur :: stack)
      | [] => parse s' (Frame [] []) (cur :: stack)
      end
    else if c =? 41 then
      match stack with
      | [] => Malformed
      | f :: st => parse s' (push f (close cur)) st
      end
    else if c =? 124 then
      parse s' (Frame (seq_of (items cur) :: alts cur) []) stack
    else if is_quantifier c then
      match items cur with
      | [] => Malformed
      | (r, true) :: _ => if c =? 42 then Malformed else Unsupported
      | (r, false) :: its =>
        parse s' (Frame (alts cur) ((quantify c r, true) :: its)) stack
      end
    else if c =? 92 then
      match s' with
      | [] => Malformed
      | d :: s'' =>
        if is_ascii_alnum d then Unsupported
        else parse s'' (push cur (Chr d)) stack
      end
    else if c =? 46 then parse s' (push cur Any) stack
    else if (c =? 91) || (c =? 123) || (c =? 94) || (c =? 36)
    then Unsupported
    else parse s' (push cur (Chr c)) stack
  end.

(** [re.compile(pattern)] *)
Definition compile (pattern : str) : compiled :=
  parse pattern (Frame [] []) [].

(** The characters that [re.IGNORECASE] does not tell apart from
    another one, as CPython 3.11 has them (Unicode 14): each line
    [(first, last, step, down)] says that the characters [first],
    [first + step], ... up to [last] match the character [down] code
    points below them.  A character of no line matches only itself. *)
Definition case_table : list (N * N * N * N) :=
  [(97, 122, 1, 32); (224, 246, 1, 32); (248, 254, 1, 32); (257, 303, 2, 1);
   (304, 304, 1, 231); (305, 305, 1, 232); (307, 311, 2, 1); (314, 328, 2,
   1); (331, 375, 2, 1); (376, 376, 1, 121); (378, 382, 2, 1); (383, 383, 1,
   300); (387, 389, 2, 1); (392, 392, 1, 1); (396, 396, 1, 1); (402, 402, 1,
   1); (409, 409, 1, 1); (417, 421, 2, 1); (424, 424, 1, 1); (429, 429, 1,
   1); (432, 432, 1, 1); (436, 438, 2, 1); (441, 441, 1, 1); (445, 445, 1,
   1); (453, 453, 1, 1); (454, 454, 1, 2); (456, 456, 1, 1); (457, 457, 1,
   2); (459, 459, 1, 1); (460, 460, 1, 2); (462, 476, 2, 1); (477, 477, 1,
   79); (479, 495, 2, 1); (498, 498, 1, 1); (499, 499, 1, 2); (501, 501, 1,
   1); (502, 502, 1, 97); (503, 503, 1, 56); (505, 543, 2, 1); (544, 544, 1,
   130); (547, 563, 2, 1); (572, 572, 1, 1); (573, 573, 1, 163); (578, 578,
   1, 1); (579, 579, 1, 195); (583, 591, 2, 1); (595, 595, 1, 210); (596,
   596, 1, 206); (598, 599, 1, 205); (601, 601, 1, 202); (603, 603, 1, 203);
   (608, 608, 1, 205); (611, 611, 1, 207); (616, 616, 1, 209); (617, 617, 1,
   211); (623, 623, 1, 211); (626, 626, 1, 213); (629, 629, 1, 214); (640,
   640, 1, 218); (643, 643, 1, 218); (648, 648, 1, 218); (649, 649, 1, 69);
   (650, 651, 1, 217); (652, 652, 1, 71); (658, 658, 1, 219); (881, 883, 2,
   1); (887, 887, 1, 1); (921, 921, 1, 84); (924, 924, 1, 743); (940, 940,
   1, 38); (941, 943, 1, 37); (945, 952, 1, 32); (953, 953, 1, 116); (954,
   955, 1, 32); (956, 956, 1, 775); (957, 971, 2, 32); (958, 961, 1, 32);
   (962, 962, 1, 31); (964, 971, 1, 32); (972, 972, 1, 64); (973, 974, 1,
   63); (976, 976, 1, 62); (977, 977, 1, 57); (981, 981, 1, 47); (982, 982,
   1, 54); (983, 983, 1, 8); (985, 1007, 2, 1); (1008, 1008, 1, 86); (1009,
   1009, 1, 80); (1011, 1011, 1, 116); (1012, 1012, 1, 92); (1013, 1013, 1,
   96); (1016, 1016, 1, 1); (1017, 1017, 1, 7); (1019, 1019, 1, 1); (1021,
   1023, 1, 130); (1072, 1103, 1, 32); (1104, 1119, 1, 80); (1121, 1153, 2,
   1); (1163, 1215, 2, 1); (1218, 1230, 2, 1); (1231, 1231, 1, 15); (1233,
   1327, 2, 1); (1377, 1414, 1, 48); (5112, 5117, 1, 8); (7296, 7296, 1,
   6254); (7297, 7297, 1, 6253); (7298, 7298, 1, 6244); (7299, 7300, 1,
   6242); (7301, 7301, 1, 6243); (7302, 7302, 1, 6236); (7303, 7303, 1,
   6181); (7312, 7354, 1, 3008); (7357, 7359, 1, 3008); (7681, 7829, 2, 1);
   (7835, 7835, 1, 59); (7838, 7838, 1, 7615); (7841, 7935, 2, 1); (7944,
   7951, 1, 8); (7960, 7965, 1, 8); (7976, 7983, 1, 8); (7992, 7999, 1, 8);
   (8008, 8013, 1, 8); (8025, 8031, 2, 8); (8040, 8047, 1, 8); (8072, 8079,
   1, 8); (8088, 8095, 1, 8); (8104, 8111, 1, 8); (8120, 8121, 1, 8); (8122,
   8123, 1, 74); (8124, 8124, 1, 9); (8126, 8126, 1, 7289); (8136, 8139, 1,
   86); (8140, 8140, 1, 9); (8147, 8147, 1, 7235); (8152, 8153, 1, 8);
   (8154, 8155, 1, 100); (8163, 8163, 1, 7219); (8168, 8169, 1, 8); (8170,
   8171, 1, 112); (8172, 8172, 1, 7); (8184, 8185, 1, 128); (8186, 8187, 1,
   126); (8188, 8188, 1, 9); (8486, 8486, 1, 7549); (8490, 8490, 1, 8415);
   (8491, 8491, 1, 8294); (8526, 8526, 1, 28); (8560, 8575, 1, 16); (8580,
   8580, 1, 1); (9424, 9449, 1, 26); (11312, 11359, 1, 48); (11361, 11361,
   1, 1); (11362, 11362, 1, 10743); (11363, 11363, 1, 3814); (11364, 11364,
   1, 10727); (11365, 11365, 1, 10795); (11366, 11366, 1, 10792); (11368,
   11372, 2, 1); (11373, 11373, 1, 10780); (11374, 11374, 1, 10749); (11375,
   11375, 1, 10783); (11376, 11376, 1, 10782); (11379, 11379, 1, 1); (11382,
   11382, 1, 1); (11390, 11391, 1, 10815); (11393, 11491, 2, 1); (11500,
   11502, 2, 1); (11507, 11507, 1, 1); (11520, 11557, 1, 7264); (11559,
   11559, 1, 7264); (11565, 11565, 1, 7264); (42561, 42569, 2, 1); (42570,
   42570, 1, 35266); (42571, 42571, 1, 35267); (42573, 42605, 2, 1); (42625,
   42651, 2, 1); (42787, 42799, 2, 1); (42803, 42863, 2, 1); (42874, 42876,
   2, 1); (42877, 42877, 1, 35332); (42879, 42887, 2, 1); (42892, 42892, 1,
   1); (42893, 42893, 1, 42280); (42897, 42899, 2, 1); (42903, 42921, 2, 1);
   (42922, 42922, 1, 42308); (42923, 42923, 1, 42319); (42924, 42924, 1,
   42315); (42925, 42925, 1, 42305); (42926, 42926, 1, 42308); (42928,
   42928, 1, 42258); (42929, 42929, 1, 42282); (42930, 42930, 1, 42261);
   (42933, 42947, 2, 1); (42948, 42948, 1, 48); (42949, 42949, 1, 42307);
   (42950, 42950, 1, 35384); (42952, 42954, 2, 1); (42961, 42961, 1, 1);
   (42967, 42969, 2, 1); (42998, 42998, 1, 1); (43859, 43859, 1, 928);
   (43888, 43967, 1, 38864); (64262, 64262, 1, 1); (65345, 65370, 1, 32);
   (66600, 66639, 1, 40); (66776, 66811, 1, 40); (66967, 67003, 2, 39);
   (66968, 66977, 1, 39); (66980, 66993, 1, 39); (66996, 67001, 1, 39);
   (67004, 67004, 1, 39); (68800, 68850, 1, 64); (71872, 71903, 1, 32);
   (93792, 93823, 1, 32); (125218, 125251, 1, 34)].

(** The representative of a character among those that match it when
    letter case is ignored: the least of them. *)
Definition fold (c : N) : N :=
  match find (fun line =>
                let '(first, last, step, _) := line in
                (first <=? c) && (c <=? last) && ((c - first) mod step =? 0))
             case_table with
  | Some (_, _, _, down) => c - down
  | None => c
  end.

(** Two characters match under [re.IGNORECASE]. *)
Definition ci_eqb (a b : N) : bool := fold a =? fold b.

Fixpoint nullable (r : regex) : bool :=
  match r with
  | Empty => false
  | Eps => true
  | Chr _ => false
  | Any => false
  | Cat r1 r2 => nullable r1 && nullable r2
  | Alt r1 r2 => nullable r1 || nullable r2
  | Star _ => true
  end.

(** What remains of [r] after reading the character [x]. *)
Fixpoint deriv (x : N) (r : regex) : regex :=
  match r with
  | Empty => Empty
  | Eps => Empty
  | Chr c => if ci_eqb c x then Eps else Empty
  | Any => if x =? 10 then Empty else Eps
  | Cat r1 r2 =>
    if nullable r1
    then Alt (Cat (deriv x r1) r2) (deriv x r2)
    else Cat (deriv x r1) r2
  | Alt r1 r2 => Alt (deriv x r1) (deriv x r2)
  | Star r1 => Cat (deriv x r1) (Star r1)
  end.

(** [r] matches some prefix of [s]. *)
Fixpoint match_here (s : str) (r : regex) : bool :=
  nullable r ||
  match s with
  | [] => false
  | x :: s' => match_here s' (deriv x r)
  end.

(** [r] matches somewhere in [s]. *)
Fixpoint found (r : regex) (s : str) : bool :=
  match_here s r ||
  match s with
  | [] => false
  | _ :: s' => found r s'
  end.

(** The expression of a literal word, and of a choice of words, as
    [compile] builds them. *)
Definition lit (w : str) : regex := fold_right (fun c r => Cat (Chr c) r) Eps w.

Fixpoint choice (ws : list str) : regex :=
  match ws with
  | [] => Empty
  | [w] => lit w
  | w :: ws' => Alt (lit w) (choice ws')
  end.

Definition group (ws : list str) : regex := Cat (choice ws) Eps.

(** An engine that answers as Python's does on the patterns of the
    syntax above, those that are malformed being refused, and leaves
    the patterns outside that syntax to the engine [beyond]. *)
Definition engine_with (beyond : regex_engine) : regex_engine :=
  fun pattern =>
    match compile pattern with
    | Compiled r => Some (found r)
    | Malformed => None
    | Unsupported => beyond pattern
    end.

(** The engine of the examples, with nothing beyond: the examples
    give it patterns of the syntax above only. *)
Definition engine : regex_engine := engine_with (fun _ => None).

End Re.

(** ** Stable sorting by a key

    [sorted(l, key=k)] and [l.sort(key=k)] compare keys with [<] only
    and keep the order of elements whose keys do not compare.  The
    model is the insertion sort with these two properties: an element
    moves to the left past the elements whose key is greater.

    Where [<] orders the keys (for floats: no NaN among them) a stable
    sort has one possible result, which is the model's.  With NaN among
    the keys Python's result depends on the runs its merge sort finds;
    the model is evaluated on such a list only for the ratios
    [2.0; nan; 1.0], which Python takes for one ascending run and
    leaves as they are, as the model does. *)

Section Sorting.

Context {A K : Type}.
Variable key : A -> K.
Variable lt : K -> K -> bool.

Fixpoint insert (x : A) (l : list A) : list A :=
  match l with
  | [] => [x]
  | y :: l' => if lt (key y) (key x) then y :: insert x l' else x :: l
  end.

Definition sort_by (l : list A) : list A := fold_right insert [] l.

(** [a] does not come after [b]. *)
Definition in_order (a b : A) : Prop := lt (key b) (key a) = false.

(** The keys [k] and [k'] do not compare: they are a tie. *)
Definition tie (k k' : K) : bool := negb (lt k k') && negb (lt k' k).

End Sorting.

(** ** Exceptions, the process state and its commands *)

(** The exceptions that can occur.  [OSError] is also [IOError]. *)
Inductive exn : Type :=
| ValueError
| TypeError
| AttributeError
| ZeroDivisionError
| ReError
| OSError
| CsvError
| EOFError.

Inductive result (A : Type) : Type :=
| Ok (a : A)
| Raise (e : exn).
Arguments Ok {A} a.
Arguments Raise {A} e.

(** The value of a column in the dictionary [csv.DictReader] makes of
    a row: the text of the cell; [None] for a column that the row is
    too short to reach; the list of the surplus cells, under the key
    [None], when the row is longer than the header. *)
Inductive cell : Type :=
| Text (s : str)
| Missing
| Surplus (cells : list str).

(** A raw record: the items of that dictionary, key and value, in
    its order.  The key is a column name of the header, or [None]. *)
Definition RawRecord := list (option str * cell).

(** One element of [self.data]:
    [[file_name, product_name, price, weight, ratio]]. *)
Record entry : Type := Entry {
  file_name : str;
  product_name : str;
  price : float;
  weight : float;
  ratio : float
}.

(** What the process prints or writes. *)
Inductive event : Type :=
| RowError (row : RawRecord) (e : exn)
| FileError (file_path : str) (e : exn)
| Table (rows : list entry)
| HtmlFile (filename : str) (rows : list entry)
| SavedFind (filename : str)
| SavedAll (filename : str)
| Finished.

(** [data] is [self.data]; [log] is the output so far, oldest first. *)
Record state : Type := State {
  data : list entry;
  log : list event
}.

(** What the process finds around it. *)
Record world : Type := World {
  (** [os.listdir] *)
  listdir : str -> result (list str);
  (** the rows [csv.DictReader] yields for a path, and the exception
      that ends the reading, if any *)
  read_csv : str -> list RawRecord * option exn;
  (** whether [open(filename, 'w')] succeeds *)
  writable : str -> bool
}.

(** A command runs on a state and returns or raises; what it did to
    the state before raising stays done. *)
Definition M (A : Type) : Type := state -> result A * state.

Definition ret {A} (a : A) : M A := fun s => (Ok a, s).

Definition raise {A} (e : exn) : M A := fun s => (Raise e, s).

Definition bind {A B} (m : M A) (k : A -> M B) : M B :=
  fun s =>
    match m s with
    | (Ok a, s') => k a s'
    | (Raise e, s') => (Raise e, s')
    end.

Notation "x <- m ;; k" := (bind m (fun x => k))
  (at level 61, m at next level, right associativity).
Notation "m ;;; k" := (bind m (fun _ => k))
  (at level 61, right associativity).

Definition lift {A} (r : result A) : M A := fun s => (r, s).

(** [try: body except catches as e: handler e] *)
Definition try_except {A} (body : M A) (catches : exn -> bool)
    (handler : exn -> M A) : M A :=
  fun s =>
    match body s with
    | (Raise e, s') => if catches e then handler e s' else (Raise e, s')
    | r => r
    end.

(** [for x in l: body x] *)
Fixpoint for_each {A} (l : list A) (body : A -> M unit) : M unit :=
  match l with
  | [] => ret tt
  | x :: l' => body x ;;; for_each l' body
  end.

Definition get_data : M (list entry) := fun s => (Ok (data s), s).

Definition set_data (d : list entry) : M unit :=
  fun s => (Ok tt, State d (log s)).

Definition emit (ev : event) : M unit :=
  fun s => (Ok tt, State (data s) (log s ++ [ev])).

(** ** Built-ins as the program calls them *)

(** [float(text)] *)
Definition py_float (text : str) : result float :=
  match Float.of_str text with
  | Some x => Ok x
  | None => Raise ValueError
  end.

(** [x / y] *)
Definition truediv (x y : float) : result float :=
  if Float.is_zero y then Raise ZeroDivisionError else Ok (Float.div x y).

(** [value.strip()]: only a text has the method. *)
Definition strip_cell (value : cell) : result str :=
  match value with
  | Text s => Ok (Str.strip s)
  | Missing => Raise AttributeError
  | Surplus _ => Raise AttributeError
  end.

(** [open(filename, 'w')] and [file.write] of a table of rows. *)
Definition write_file (w : world) (filename : str) (rows : list entry)
    : M unit :=
  if writable w filename then emit (HtmlFile filename rows)
  else raise OSError.

(** ** The program *)

Definition show_result (rows : list entry) : M unit := emit (Table rows).

Definition export_to_html (w : world) (rows : list entry) (filename : str)
    : M unit :=
  write_file w filename rows.

Definition NAME_PATTERN : str := Eval vm_compute in u "(название|продукт|товар|наименование)".
Definition PRICE_PATTERN : str := Eval vm_compute in u "(цена|розница)".
Definition WEIGHT_PATTERN : str := Eval vm_compute in u "(фасовка|масса|вес)".

Definition comma : N := 44%N.
Definition point : N := 46%N.

Definition catches_type_or_value (e : exn) : bool :=
  match e with
  | TypeError | ValueError => true
  | _ => false
  end.

Definition catches_io_or_csv (e : exn) : bool :=
  match e with
  | OSError | CsvError => true
  | _ => false
  end.

(** [filename.endswith('.csv') and 'price' in filename.lower()] *)
Definition is_price_list (filename : str) : bool :=
  Str.endswith filename (u ".csv")
  && Str.contains (Str.lower filename) (u "price").

(** [sorted(rows, key=lambda x: x[4])] *)
Definition sort_by_ratio (rows : list entry) : list entry :=
  sort_by ratio Float.ltb rows.

Definition export_to_html_all (w : world) (fname : str) : M unit :=
  d <- get_data ;;
  set_data (sort_by_ratio d) ;;;
  d' <- get_data ;;
  write_file w fname d' ;;;
  emit (SavedAll fname).

(** [query.lower() in 'exit'] *)
Definition is_exit (query : str) : bool :=
  Str.contains (u "exit") (Str.lower query).

(** The semantic fields and their patterns. *)
Inductive field : Type := NAME | PRICE | WEIGHT.

Definition pattern_of (f : field) : str :=
  match f with
  | NAME => NAME_PATTERN
  | PRICE => PRICE_PATTERN
  | WEIGHT => WEIGHT_PATTERN
  end.

(** What a row comes to in [row_handle]: an entry, a report of the
    exception that made it skip the row, or an exception that leaves
    it. *)
Inductive verdict : Type :=
| Accepts (e : entry)
| Skips (e : exn)
| Aborts (e : exn).

Section Program.

(** Python's [re]. *)
Variable re : regex_engine.

(** [re.search(pattern, text, re.IGNORECASE)], as a truth value.  The
    pattern is compiled first; then the text must be a [str], which
    the key [None] is not. *)
Definition re_search (pattern : str) (text : option str) : result bool :=
  match re pattern with
  | None => Raise ReError
  | Some found =>
    match text with
    | Some t => Ok (found t)
    | None => Raise TypeError
    end
  end.

Fixpoint extract_value (row : RawRecord) (pattern : str) : result str :=
  match row with
  | [] => Ok []
  | (column_name, value) :: rest =>
    match re_search pattern column_name with
    | Ok true => strip_cell value
    | Ok false => extract_value rest pattern
    | Raise e => Raise e
    end
  end.

Definition row_handle (file_name : str) (row : RawRecord) : M unit :=
  try_except
    (product_name <- lift (extract_value row NAME_PATTERN) ;;
     price_text <- lift (extract_value row PRICE_PATTERN) ;;
     price <- lift (py_float (Str.replace comma point price_text)) ;;
     weight_text <- lift (extract_value row WEIGHT_PATTERN) ;;
     weight <- lift (py_float (Str.replace comma point weight_text)) ;;
     quotient <- lift (truediv price weight) ;;
     d <- get_data ;;
     set_data (d ++ [Entry file_name product_name price weight
                           (Float.round2 quotient)]))
    catches_type_or_value
    (fun e => emit (RowError row e)).

Definition load_data (w : world) (file_path : str) : M unit :=
  try_except
    (for_each (fst (read_csv w file_path)) (row_handle file_path) ;;;
     match snd (read_csv w file_path) with
     | Some e => raise e
     | None => ret tt
     end)
    catches_io_or_csv
    (fun e => emit (FileError file_path e)).

(** The path given to [load_data] is [os.path.join(filename)], the file
    name alone. *)
Definition load_prices (w : world) (directory : str) : M unit :=
  set_data [] ;;;
  names <- lift (listdir w directory) ;;
  for_each names
    (fun filename =>
       if is_price_list filename then load_data w filename else ret tt).

(** The list comprehension of [search_element]: the pattern is used
    once per row, in order, and the first exception ends it. *)
Fixpoint select (query : str) (rows : list entry) : result (list entry) :=
  match rows with
  | [] => Ok []
  | row :: rest =>
    match re_search query (Some (product_name row)) with
    | Raise e => Raise e
    | Ok keep =>
      match select query rest with
      | Raise e => Raise e
      | Ok kept => Ok (if keep then row :: kept else kept)
      end
    end
  end.

Definition search_element (query : str) : M (list entry) :=
  d <- get_data ;;
  found <- lift (select query d) ;;
  ret (sort_by_ratio found).

Definition find_text (w : world) (query : str) : M unit :=
  found <- search_element query ;;
  show_result found ;;;
  export_to_html w found (u "output_find.html") ;;;
  emit (SavedFind (u "output_find.html")) ;;;
  export_to_html_all w (u "output_all.html").

(** The loop of [main]; [inputs] are the lines [input] will return,
    and reading past them is the end of the input. *)
Fixpoint main_loop (w : world) (inputs : list str) : M unit :=
  match inputs with
  | [] => raise EOFError
  | query :: rest =>
    if is_exit query then emit Finished
    else find_text w query ;;; main_loop w rest
  end.

Definition main (w : world) (directory : str) (inputs : list str) : M unit :=
  load_prices w directory ;;;
  main_loop w inputs.

(** ** One row *)

(** The number a row gives for a field:
    [float(self.extract_value(row, pattern).replace(',', '.'))]. *)
Definition number_of (f : field) (row : RawRecord) : result float :=
  match extract_value row (pattern_of f) with
  | Ok text => py_float (Str.replace comma point text)
  | Raise e => Raise e
  end.

(** No column of the row is named after the field. *)
Definition missing (f : field) (row : RawRecord) : Prop :=
  forall name value,
    In (Some name, value) row ->
    re_search (pattern_of f) (Some name) = Ok false.

(** The field is missing from the row, or the text of its column is
    not a number. *)
Definition unusable (f : field) (row : RawRecord) : Prop :=
  missing f row
  \/ exists text,
       extract_value row (pattern_of f) = Ok text
       /\ Float.of_str (Str.replace comma point text) = None.

(** The columns that the three fields resolve to hold text: no
    [strip] of a missing cell is attempted. *)
Definition resolves_to_text (row : RawRecord) : Prop :=
  forall f, extract_value row (pattern_of f) <> Raise AttributeError.

(** The three patterns of [row_handle] compile. *)
Definition patterns_compile : Prop :=
  forall f, re (pattern_of f) <> None.

(** What [row_handle] comes to on a row. *)
Definition verdict_of (file_name : str) (row : RawRecord) : verdict :=
  match extract_value row NAME_PATTERN with
  | Raise e => if catches_type_or_value e then Skips e else Aborts e
  | Ok name =>
    match number_of PRICE row with
    | Raise e => if catches_type_or_value e then Skips e else Aborts e
    | Ok p =>
      match number_of WEIGHT row with
      | Raise e => if catches_type_or_value e then Skips e else Aborts e
      | Ok w =>
        if Float.is_zero w then Aborts ZeroDivisionError
        else Accepts (Entry file_name name p w (Float.round2 (Float.div p w)))
      end
    end
  end.

(** The entry is what [row_handle] makes of the row of that file. *)
Definition produced (file_name : str) (row : RawRecord) (e : entry) : Prop :=
  exists name p w,
    extract_value row NAME_PATTERN = Ok name
    /\ number_of PRICE row = Ok p
    /\ number_of WEIGHT row = Ok w
    /\ Float.is_zero w = false
    /\ e = Entry file_name name p w (Float.round2 (Float.div p w)).

(** The entry comes from a row of a price list of the directory. *)
Definition of_pass (w : world) (directory : str) (e : entry) : Prop :=
  exists names row,
    listdir w directory = Ok names
    /\ In (file_name e) names
    /\ is_price_list (file_name e) = true
    /\ In row (fst (read_csv w (file_name e)))
    /\ produced (file_name e) row e.

(** ** Loading, row by row *)

(** Price and weight are numbers and the weight is zero: the
    division raises, when the row gets as far. *)
Definition zero_weight (row : RawRecord) : bool :=
  match number_of PRICE row, number_of WEIGHT row with
  | Ok _, Ok w => Float.is_zero w
  | _, _ => false
  end.

(** The exception with which the first row that [row_handle] does
    not come back from leaves it, if there is such a row. *)
Fixpoint first_abort (file_name : str) (rows : list RawRecord)
    : option exn :=
  match rows with
  | [] => None
  | row :: rest =>
    match verdict_of file_name row with
    | Aborts e => Some e
    | _ => first_abort file_name rest
    end
  end.

(** The rows read before that one. *)
Fixpoint until_abort (file_name : str) (rows : list RawRecord)
    : list RawRecord :=
  match rows with
  | [] => []
  | row :: rest =>
    match verdict_of file_name row with
    | Aborts _ => []
    | _ => row :: until_abort file_name rest
    end
  end.

(** What a row adds to the catalogue: one entry or none. *)
Definition entries_of (file_name : str) (row : RawRecord) : list entry :=
  match verdict_of file_name row with
  | Accepts e => [e]
  | _ => []
  end.

(** What is printed for a row: nothing, or that it was skipped. *)
Definition reports_of (file_name : str) (row : RawRecord) : list event :=
  match verdict_of file_name row with
  | Skips e => [RowError row e]
  | _ => []
  end.

(** How the load of one file ends. *)
Definition file_outcome (w : world) (file_path : str) : result unit :=
  match first_abort file_path (fst (read_csv w file_path)) with
  | Some e => Raise e
  | None =>
    match snd (read_csv w file_path) with
    | None => Ok tt
    | Some e => if catches_io_or_csv e then Ok tt else Raise e
    end
  end.

(** What the load of one file adds to the catalogue. *)
Definition file_entries (w : world) (file_path : str) : list entry :=
  flat_map (entries_of file_path)
           (until_abort file_path (fst (read_csv w file_path))).

(** What the load of one file prints. *)
Definition file_reports (w : world) (file_path : str) : list event :=
  flat_map (reports_of file_path)
           (until_abort file_path (fst (read_csv w file_path)))
  ++ match first_abort file_path (fst (read_csv w file_path)) with
     | Some _ => []
     | None =>
       match snd (read_csv w file_path) with
       | Some e => if catches_io_or_csv e then [FileError file_path e]
                   else []
       | None => []
       end
     end.

End Program.

(** The row has surplus cells: it is longer than its header, and the
    dictionary has the key [None]. *)
Definition has_surplus (row : RawRecord) : bool :=
  existsb (fun c => match fst c with None => true | Some _ => false end) row.

(** Every named column of the row holds a text: the row is not
    shorter than its header. *)
Definition named_texts (row : RawRecord) : bool :=
  forallb (fun c => match fst c, snd c with
                    | Some _, Text _ => true
                    | Some _, _ => false
                    | None, _ => true
                    end) row.

(** The search passes over the columns: each has a name, and [found]
    does not accept it. *)
Definition unmatched (found : str -> bool) (columns : RawRecord) : bool :=
  forallb (fun c => match fst c with
                    | Some name => negb (found name)
                    | None => false
                    end) columns.

(** The row with every decimal comma of its cells written as a point. *)
Definition with_points (row : RawRecord) : RawRecord :=
  map (fun c => (fst c,
                 match snd c with
                 | Text s => Text (Str.replace comma point s)
                 | other => other
                 end)) row.

(** ** Commands: what they keep and what they depend on *)

(** [m] keeps the property [Q] of the catalogue. *)
Definition keeps (Q : list entry -> Prop) {A} (m : M A) : Prop :=
  forall s, Q (data s) -> Q (data (snd (m s))).

(** [m] reads the catalogue only, and only adds to the output: result,
    catalogue and added output are the same whatever was printed
    before. *)
Definition regular {A} (m : M A) : Prop :=
  forall d, exists r d' l, forall lg, m (State d lg) = (r, State d' (lg ++ l)).

(** ** The catalogue in order of ratio *)

(** The invariant of the specification: a weight above zero, and a
    price above zero and finite. *)
Definition positive_entry (e : entry) : Prop :=
  Float.ltb Float.zero (weight e) = true
  /\ Float.ltb Float.zero (price e) = true
  /\ Float.is_finite (price e) = true.

(** The ratios do not decrease along the list. *)
Definition ascending (l : list entry) : Prop :=
  StronglySorted (fun a b => Float.leb (ratio a) (ratio b) = true) l.

(** No ratio of the list is NaN. *)
Definition no_nan (l : list entry) : Prop :=
  Forall (fun e => Float.is_nan (ratio e) = false) l.

(** The entry has the ratio [k]. *)
Definition same_ratio (k : float) (e : entry) : bool := Float.eqb k (ratio e).

(** ** The field names, as the specification words them *)

(** The candidate names of a field. *)
Definition words_of (f : field) : list str :=
  match f with
  | NAME => [u "название"; u "продукт"; u "товар"; u "наименование"]
  | PRICE => [u "цена"; u "розница"]
  | WEIGHT => [u "фасовка"; u "масса"; u "вес"]
  end.

(** [w] is read at the start of [s], letter case ignored. *)
Fixpoint ci_startswith (s w : str) : bool :=
  match w, s with
  | [], _ => true
  | _ :: _, [] => false
  | a :: w', c :: s' => Re.ci_eqb a c && ci_startswith s' w'
  end.

(** [w] occurs in [s], letter case ignored. *)
Fixpoint ci_contains (s w : str) : bool :=
  ci_startswith s w ||
  match s with
  | [] => false
  | _ :: s' => ci_contains s' w
  end.

(** The column name contains one of the candidate names of [f]. *)
Definition names_field (f : field) (column_name : str) : bool :=
  existsb (ci_contains column_name) (words_of f).

(** ** Plain queries and the words that end the session *)

(** The character has no special meaning in a pattern. *)
Definition plain (c : N) : bool :=
  negb ((c =? 40) || (c =? 41) || (c =? 124) || (c =? 42) || (c =? 43)
        || (c =? 63) || (c =? 92) || (c =? 46) || (c =? 91) || (c =? 123)
        || (c =? 94) || (c =? 36)).

(** The contiguous parts of [exit]. *)
Definition exit_words : list str :=
  [[]; u "e"; u "x"; u "i"; u "t"; u "ex"; u "xi"; u "it";
   u "exi"; u "xit"; u "exit"].

(** ** The numbered rows of the tables *)

(** [enumerate(l)], counting from [i]. *)
Fixpoint enumerate_from {A} (i : nat) (l : list A) : list (nat * A) :=
  match l with
  | [] => []
  | x :: l' => (i, x) :: enumerate_from (S i) l'
  end.

(** [[[i + 1] + result for i, result in enumerate(result)]], the rows
    that [show_result] and [export_to_html] hand to [tabulate]. *)
Definition number_result {A} (rows : list A) : list (nat * A) :=
  map (fun ir => (fst ir + 1, snd ir)%nat) (enumerate_from 0%nat rows).

(** The rows of the table of [export_to_html_all]: the loop that
    writes one row per line with the running number [count_]. *)
Definition count_rows {A} (rows : list A) : list (nat * A) :=
  fst (fold_left
         (fun acc line => (fst acc ++ [(snd acc, line)], (snd acc + 1)%nat))
         rows ([], 1%nat)).

(** ** Examples of rows, catalogues and worlds *)

(** [d[key] = value] on the items of a dictionary: the value of a key
    that is there is replaced where it stands, a new key goes last. *)
Fixpoint dict_set (key : option str) (value : cell) (d : RawRecord)
    : RawRecord :=
  match d with
  | [] => [(key, value)]
  | (k, v) :: d' =>
    if match key, k with
       | Some a, Some b => Str.eqb a b
       | None, None => true
       | _, _ => false
       end
    then (key, value) :: d'
    else (k, v) :: dict_set key value d'
  end.

(** The dictionary [csv.DictReader] makes of the cells of a row under
    the field names: the cells by name; the names the row does not
    reach with [None]; the cells beyond the names under the key
    [None]. *)
Definition dict_row (fieldnames cells : list str) : RawRecord :=
  let zipped :=
    fold_left (fun d kv => dict_set (Some (fst kv)) (Text (snd kv)) d)
              (combine fieldnames cells) [] in
  let lf := List.length fieldnames in
  let lr := List.length cells in
  if (lf <? lr)%nat then dict_set None (Surplus (skipn lf cells)) zipped
  else fold_left (fun d key => dict_set (Some key) Missing d)
                 (skipn lr fieldnames) zipped.

Definition header : list str := [u "товар"; u "цена"; u "вес"].

(** The record of a row under [header]. *)
Definition record (cells : list str) : RawRecord := dict_row header cells.

Definition milk_row : RawRecord := Eval vm_compute in record [u "Молоко"; u "80,5"; u "1"].
Definition zero_row : RawRecord := Eval vm_compute in record [u "Молоко"; u "80,5"; u "0"].
Definition minus_row : RawRecord := Eval vm_compute in record [u "Гиря"; u "100"; u "-1"].
Definition cheese_row : RawRecord := Eval vm_compute in record [u "Сыр"; u "100"; u "3"].
Definition butter_row : RawRecord := Eval vm_compute in record [u "Масло"; u "2,675"; u "1"].
Definition salt_row : RawRecord := Eval vm_compute in record [u "Соль"; u "1"; u "8"].

(** A row under a header with two price columns and blanks around
    the cells. *)
Definition padded_row : RawRecord := Eval vm_compute in
  dict_row [u "N"; u "Цена, руб."; u "розница"; u "вес"]
           [u "1"; u "  80,5 "; u "90"; u " 1"].

(** A row without a name column, one without a price column, the
    first with a surplus cell, and a row too short for its header. *)
Definition nameless_row : RawRecord := Eval vm_compute in
  dict_row [u "цена"; u "вес"] [u "5"; u "2"].

Definition priceless_row : RawRecord := Eval vm_compute in
  dict_row [u "товар"; u "вес"] [u "Сыр"; u "1"].

Definition long_nameless_row : RawRecord := Eval vm_compute in
  dict_row [u "цена"; u "вес"] [u "300"; u "1"; u "extra"].

Definition short_row : RawRecord := Eval vm_compute in
  dict_row [u "товар"; u "цена"] [u "Сыр"].

Definition s0 : state := State [] [].

Definition one_file (name : str) (rows : list RawRecord) : world :=
  World (fun _ => Ok [name]) (fun _ => (rows, None)) (fun _ => true).

(** A catalogue with a NaN ratio: the price list whose three rows
    have the prices [2], [nan] and [1] for the weight [1]. *)
Definition nan_world : world :=
  one_file (u "price_nan.csv")
    [record [u "Молоко"; u "2"; u "1"];
     record [u "Молоко сухое"; u "nan"; u "1"];
     record [u "Молочный шоколад"; u "1"; u "1"]].

Definition nan_catalogue : state :=
  Eval vm_compute in snd (load_prices Re.engine nan_world (u ".") s0).

(** The catalogue of the search scenario, the dearer entry first, and
    one entry that the query does not name. *)
Definition milk_world : world :=
  one_file (u "price_1.csv")
    [record [u "Молочный шоколад"; u "120"; u "1"];
     record [u "Сыр"; u "300"; u "1"];
     record [u "Молоко"; u "80,5"; u "1"]].

Definition milk_catalogue : state :=
  Eval vm_compute in snd (load_prices Re.engine milk_world (u ".") s0).

Definition report_rows : list RawRecord := Eval vm_compute in
  [record [u "Отчёт"; u "1"; u "1"]].

(** A directory with a price list and a report; [report.csv] holds
    the rows [other]. *)
Definition two_files (other : list RawRecord) : world :=
  World (fun _ => Ok [u "price_list.csv"; u "report.csv"])
        (fun name => if Str.eqb name (u "report.csv") then (other, None)
                     else ([milk_row], None))
        (fun _ => true).

(** The names of the two reports. *)
Definition find_file : str := Eval vm_compute in u "output_find.html".
Definition all_file : str := Eval vm_compute in u "output_all.html".

(** The world of the search scenario where [locked] cannot be written. *)
Definition read_only (locked : str) : world :=
  World (listdir milk_world) (read_csv milk_world)
        (fun name => negb (Str.eqb name locked)).

(** * Properties *)

(** ** Regular expressions of literal words *)

Module ReFacts.
Import Re.

Lemma match_here_Empty (s : str) : match_here s Empty = false.
Proof. induction s; simpl; auto. Qed.

Lemma match_here_Alt (s : str) :
  forall r1 r2, match_here s (Alt r1 r2) = match_here s r1 || match_here s r2.
Proof.
  induction s as [|x s IH]; intros r1 r2; simpl.
  - now rewrite !orb_false_r.
  - rewrite IH.
    destruct (nullable r1), (nullable r2), (match_here s (deriv x r1)),
      (match_here s (deriv x r2)); reflexivity.
Qed.

Lemma match_here_Cat_Empty (s : str) :
  forall r, match_here s (Cat Empty r) = false.
Proof. induction s as [|x s IH]; intros r; simpl; auto. Qed.

Lemma match_here_Cat_Eps_l (s : str) :
  forall r, match_here s (Cat Eps r) = match_here s r.
Proof.
  destruct s as [|x s]; intros r; simpl; auto.
  now rewrite match_here_Alt, match_here_Cat_Empty.
Qed.

Lemma match_here_Cat_Eps_r (s : str) :
  forall r, match_here s (Cat r Eps) = match_here s r.
Proof.
  induction s as [|x s IH]; intros r; simpl.
  - now rewrite andb_true_r.
  - rewrite andb_true_r. destruct (nullable r); simpl; auto.
Qed.

Lemma match_here_lit (w : str) :
  forall s, match_here s (lit w) = ci_startswith s w.
Proof.
  induction w as [|a w IH]; intros s.
  - destruct s; reflexivity.
  - destruct s as [|x s]; simpl; auto.
    destruct (ci_eqb a x); simpl.
    + now rewrite match_here_Cat_Eps_l, IH.
    + apply match_here_Cat_Empty.
Qed.

Lemma match_here_choice (ws : list str) (s : str) :
  match_here s (choice ws) = existsb (ci_startswith s) ws.
Proof.
  induction ws as [|w ws IH]; simpl.
  - apply match_here_Empty.
  - destruct ws as [|w' ws].
    + simpl. now rewrite orb_false_r, match_here_lit.
    + now rewrite match_here_Alt, match_here_lit, IH.
Qed.

Lemma existsb_orb {A} (f g : A -> bool) (l : list A) :
  existsb (fun x => f x || g x) l = existsb f l || existsb g l.
Proof.
  induction l as [|x l IH]; simpl; auto.
  rewrite IH. destruct (f x), (g x), (existsb f l); simpl; auto.
Qed.

Lemma existsb_eq {A} (f g : A -> bool) (l : list A) :
  (forall x, f x = g x) -> existsb f l = existsb g l.
Proof.
  intros H. induction l as [|x l IH]; simpl; auto. now rewrite H, IH.
Qed.

Lemma found_group (ws : list str) (s : str) :
  found (group ws) s = existsb (ci_contains s) ws.
Proof.
  unfold group. induction s as [|x s IH].
  - cbn [found ci_contains].
    rewrite match_here_Cat_Eps_r, match_here_choice.
    rewrite orb_false_r. apply existsb_eq. intros w. now rewrite orb_false_r.
  - cbn [found]. rewrite IH, match_here_Cat_Eps_r, match_here_choice.
    symmetry. apply (existsb_orb (ci_startswith (x :: s)) (ci_contains s)).
Qed.

Lemma compile_field (f : field) :
  compile (pattern_of f) = Compiled (group (words_of f)).
Proof. destruct f; vm_compute; reflexivity. Qed.

End ReFacts.

Lemma engine_with_field (beyond : regex_engine) (f : field) :
  Re.engine_with beyond (pattern_of f)
  = Some (Re.found (Re.group (words_of f))).
Proof. unfold Re.engine_with. now rewrite ReFacts.compile_field. Qed.

Lemma engine_field (f : field) :
  Re.engine (pattern_of f) = Some (Re.found (Re.group (words_of f))).
Proof. apply engine_with_field. Qed.

(** ** Searching a pattern in a column name *)

Lemma re_search_text (re : regex_engine) (pattern : str)
    (found : str -> bool) (text : str) :
  re pattern = Some found ->
  re_search re pattern (Some text) = Ok (found text).
Proof. intros E. unfold re_search. now rewrite E. Qed.

Lemma re_search_no_text (re : regex_engine) (pattern : str) :
  re pattern <> None -> re_search re pattern None = Raise TypeError.
Proof.
  intros E. unfold re_search. destruct (re pattern); [reflexivity|congruence].
Qed.

Lemma re_search_compiles (re : regex_engine) (pattern : str)
    (text : option str) (b : bool) :
  re_search re pattern text = Ok b -> re pattern <> None.
Proof. unfold re_search. destruct (re pattern); [discriminate|discriminate]. Qed.

(** With an engine of the module [Re], finding a field's pattern in
    a column name is finding one of the field's candidate names
    there, letter case ignored. *)
Lemma re_search_field (beyond : regex_engine) (f : field)
    (column_name : str) :
  re_search (Re.engine_with beyond) (pattern_of f) (Some column_name)
  = Ok (names_field f column_name).
Proof.
  rewrite (re_search_text _ _ _ _ (engine_with_field beyond f)).
  now rewrite ReFacts.found_group.
Qed.

(** ** The value of a field *)

Lemma extract_value_unmatched (re : regex_engine) (pattern : str)
    (found : str -> bool) (before rest : RawRecord) :
  re pattern = Some found ->
  unmatched found before = true ->
  extract_value re (before ++ rest) pattern = extract_value re rest pattern.
Proof.
  intros E. induction before as [|[[name|] value] before IH]; cbn; intros H.
  - reflexivity.
  - apply andb_prop in H. destruct H as [Hn Hb].
    rewrite (re_search_text re pattern found name E).
    destruct (found name); [discriminate|]. now apply IH.
  - discriminate.
Qed.

(** The exceptions that [extract_value] can raise. *)
Lemma extract_value_raises (re : regex_engine) (row : RawRecord)
    (pattern : str) (x : exn) :
  extract_value re row pattern = Raise x ->
  x = TypeError \/ x = AttributeError \/ x = ReError.
Proof.
  induction row as [|[key value] row IH]; cbn [extract_value]; [discriminate|].
  unfold re_search. destruct (re pattern) as [found|].
  - destruct key as [name|].
    + destruct (found name); [|exact IH].
      destruct value; cbn; intros H; inversion H; auto.
    + intros H. inversion H. auto.
  - intros H. inversion H. auto.
Qed.

Lemma extract_value_no_re_error (re : regex_engine) (row : RawRecord)
    (pattern : str) :
  re pattern <> None -> extract_value re row pattern <> Raise ReError.
Proof.
  intros E. induction row as [|[key value] row IH]; cbn [extract_value];
    [discriminate|].
  unfold re_search. destruct (re pattern) as [found|]; [|congruence].
  destruct key as [name|]; [|discriminate].
  destruct (found name); [|exact IH].
  destruct value; cbn; discriminate.
Qed.

(** A [TypeError] comes from the key of the surplus cells. *)
Lemma extract_value_type_error (re : regex_engine) (row : RawRecord)
    (pattern : str) :
  extract_value re row pattern = Raise TypeError -> has_surplus row = true.
Proof.
  induction row as [|[key value] row IH]; cbn [extract_value]; [discriminate|].
  destruct key as [name|]; [|reflexivity].
  unfold has_surplus. cbn [existsb fst orb].
  unfold re_search. destruct (re pattern) as [found|]; [|discriminate].
  destruct (found name); [|exact IH].
  destruct value; cbn; discriminate.
Qed.

(** Where a returned value comes from. *)
Lemma extract_value_origin (re : regex_engine) (row : RawRecord)
    (pattern text : str) :
  extract_value re row pattern = Ok text ->
  text = []
  \/ exists name value,
       In (Some name, Text value) row
       /\ re_search re pattern (Some name) = Ok true
       /\ text = Str.strip value.
Proof.
  induction row as [|[key value] row IH]; cbn [extract_value]; intros H.
  - inversion H. now left.
  - destruct (re_search re pattern key) as [[|]|] eqn:E; [| |discriminate].
    + right. destruct value as [cell_text| |]; cbn in H; inversion H; subst.
      destruct key as [name|].
      * exists name, cell_text. cbn. auto.
      * unfold re_search in E. destruct (re pattern); discriminate.
    + destruct (IH H) as [->|(name & cell_text & Hin & Hm & ->)]; [now left|].
      right. exists name, cell_text. cbn. auto.
Qed.

(** A field that is missing from the row: the search runs to the end
    of the row, or to the key of the surplus cells. *)
Lemma extract_value_missing (re : regex_engine) (f : field)
    (row : RawRecord) :
  re (pattern_of f) <> None ->
  missing re f row ->
  extract_value re row (pattern_of f)
  = if has_surplus row then Raise TypeError else Ok [].
Proof.
  intros E. induction row as [|[key value] row IH]; intros H.
  - reflexivity.
  - cbn [extract_value]. destruct key as [name|].
    + rewrite (H name value (or_introl eq_refl)).
      unfold has_surplus. cbn [existsb fst orb]. apply IH.
      intros n v Hin. apply (H n v). now right.
    + now rewrite re_search_no_text.
Qed.

(** C4, as stated, fails on the rows that [csv.DictReader] completes.
    The row [300; 1; extra] under the header [цена; вес] has no name
    column: the search reaches the key [None] of the surplus cell and
    raises [TypeError], where the claim has the empty text.  In the
    row [Сыр] under the header [товар; цена] the first price column
    holds [None], and [strip] raises [AttributeError], where the claim
    has the value trimmed. *)
Lemma extract_value_raises_on_ragged_rows :
  long_nameless_row
  = [(Some (u "цена"), Text (u "300")); (Some (u "вес"), Text (u "1"));
     (None, Surplus [u "extra"])]
  /\ extract_value Re.engine long_nameless_row NAME_PATTERN = Raise TypeError
  /\ short_row = [(Some (u "товар"), Text (u "Сыр")); (Some (u "цена"), Missing)]
  /\ extract_value Re.engine short_row PRICE_PATTERN = Raise AttributeError.
Proof. repeat split; vm_compute; reflexivity. Qed.

(** C4, amended.  For each of the three fields, whose pattern the
    engine has compiled to [found], [extract_value] goes through the
    columns in the record's order.  At the first column whose name
    the pattern is found in, it returns the value trimmed, when the
    value is a text, and raises [AttributeError] when it is [None] or
    a list; the columns after it have no influence.  When the pattern
    is found in no column name, it returns the empty text, unless the
    record has the key [None]: there it raises [TypeError].  An
    engine of the module [Re] finds the pattern of a field in the
    names that contain one of the field's candidate names, letter case
    ignored; in the row [1;   80,5 ; 90;  1] under the header [N;
    Цена, руб.; розница; вес] the price is [80,5] and the weight
    [1]. *)
Theorem extract_value_first_match :
  (forall (re : regex_engine) (f : field) (found : str -> bool),
      re (pattern_of f) = Some found ->
      (forall before name value after,
          unmatched found before = true ->
          found name = true ->
          extract_value re (before ++ (Some name, Text value) :: after)
                        (pattern_of f)
          = Ok (Str.strip value)
          /\ extract_value re (before ++ (Some name, Missing) :: after)
                           (pattern_of f)
             = Raise AttributeError)
      /\ (forall row,
            unmatched found row = true ->
            extract_value re row (pattern_of f) = Ok [])
      /\ (forall before value after,
            unmatched found before = true ->
            extract_value re (before ++ (None, value) :: after) (pattern_of f)
            = Raise TypeError))
  /\ (forall beyond f column_name,
        re_search (Re.engine_with beyond) (pattern_of f) (Some column_name)
        = Ok (names_field f column_name))
  /\ extract_value Re.engine padded_row PRICE_PATTERN
     = Ok [56; 48; 44; 53]%N
  /\ extract_value Re.engine padded_row WEIGHT_PATTERN = Ok [49]%N
  /\ extract_value Re.engine padded_row NAME_PATTERN = Ok [].
Proof.
  split; [|split; [exact re_search_field|repeat split; vm_compute; reflexivity]].
  intros re f found E. split; [|split].
  - intros before name value after Hb Hn.
    rewrite !(extract_value_unmatched re _ found before _ E Hb).
    cbn [extract_value]. rewrite (re_search_text re _ found name E), Hn.
    split; reflexivity.
  - intros row Hr.
    rewrite <- (app_nil_r row).
    now rewrite (extract_value_unmatched re _ found row [] E Hr).
  - intros before value after Hb.
    rewrite (extract_value_unmatched re _ found before _ E Hb).
    cbn [extract_value]. rewrite re_search_no_text; [reflexivity|congruence].
Qed.

Lemma extract_value_first_match_witness :
  extract_value Re.engine
    ([(Some (u "N"), Text (u "1"))]
     ++ (Some (u "Цена, руб."), Text (u "  80,5 "))
     :: [(Some (u "розница"), Text (u "90")); (Some (u "вес"), Text (u " 1"))])
    (pattern_of PRICE)
  = Ok (Str.strip (u "  80,5 "))
  /\ extract_value Re.engine
       ([(Some (u "N"), Text (u "1"))]
        ++ (Some (u "Цена, руб."), Missing)
        :: [(Some (u "розница"), Text (u "90")); (Some (u "вес"), Text (u " 1"))])
       (pattern_of PRICE)
     = Raise AttributeError.
Proof.
  apply (proj1 (proj1 extract_value_first_match Re.engine PRICE
                      (Re.found (Re.group (words_of PRICE)))
                      (engine_field PRICE))
               [(Some (u "N"), Text (u "1"))] (u "Цена, руб.") (u "  80,5 ")
               [(Some (u "розница"), Text (u "90"));
                (Some (u "вес"), Text (u " 1"))]).
  - vm_compute; reflexivity.
  - vm_compute; reflexivity.
Defined.

(** ** One row *)

(** What [row_handle] does, by what the row comes to. *)
Lemma row_handle_verdict (re : regex_engine) (file_name : str)
    (row : RawRecord) (s : state) :
  row_handle re file_name row s =
  match verdict_of re file_name row with
  | Accepts e => (Ok tt, State (data s ++ [e]) (log s))
  | Skips x => (Ok tt, State (data s) (log s ++ [RowError row x]))
  | Aborts x => (Raise x, s)
  end.
Proof.
  unfold row_handle, verdict_of, number_of, try_except, bind, lift.
  cbn [pattern_of].
  destruct (extract_value re row NAME_PATTERN) as [name|x];
    [|destruct x; reflexivity].
  destruct (extract_value re row PRICE_PATTERN) as [price_text|x];
    [|destruct x; reflexivity].
  unfold py_float.
  destruct (Float.of_str (Str.replace comma point price_text)) as [p|];
    [|reflexivity].
  destruct (extract_value re row WEIGHT_PATTERN) as [weight_text|x];
    [|destruct x; reflexivity].
  destruct (Float.of_str (Str.replace comma point weight_text)) as [w|];
    [|reflexivity].
  unfold truediv. destruct (Float.is_zero w); reflexivity.
Qed.

Lemma number_of_text (re : regex_engine) (f : field) (row : RawRecord)
    (text : str) :
  extract_value re row (pattern_of f) = Ok text ->
  number_of re f row = py_float (Str.replace comma point text).
Proof. intros E. unfold number_of. now rewrite E. Qed.

Lemma number_of_parts (re : regex_engine) (f : field) (row : RawRecord)
    (x : float) :
  number_of re f row = Ok x ->
  exists text,
    extract_value re row (pattern_of f) = Ok text
    /\ Float.of_str (Str.replace comma point text) = Some x.
Proof.
  unfold number_of, py_float.
  destruct (extract_value re row (pattern_of f)) as [text|]; [|discriminate].
  destruct (Float.of_str _) as [y|] eqn:E; [|discriminate].
  intros H. inversion H; subst. now exists text.
Qed.

(** The exceptions that the number of a field can raise. *)
Lemma number_of_raises (re : regex_engine) (f : field) (row : RawRecord)
    (x : exn) :
  number_of re f row = Raise x ->
  x = ValueError \/ extract_value re row (pattern_of f) = Raise x.
Proof.
  unfold number_of, py_float.
  destruct (extract_value re row (pattern_of f)) as [text|y];
    [|intros H; inversion H; now right].
  destruct (Float.of_str _); [discriminate|].
  intros H. inversion H; subst. now left.
Qed.

(** The exceptions with which a row can leave [row_handle]. *)
Lemma verdict_aborts (re : regex_engine) (file_name : str) (row : RawRecord)
    (x : exn) :
  verdict_of re file_name row = Aborts x ->
  x = ZeroDivisionError \/ x = AttributeError \/ x = ReError.
Proof.
  assert (K : forall y, (y = TypeError \/ y = AttributeError \/ y = ReError) ->
                        (if catches_type_or_value y then Skips y else Aborts y)
                        = Aborts x ->
                        x = ZeroDivisionError \/ x = AttributeError \/ x = ReError).
  { intros y [-> | [-> | ->]]; cbn; intros H; inversion H; auto. }
  unfold verdict_of.
  destruct (extract_value re row NAME_PATTERN) as [name|y] eqn:En.
  - destruct (number_of re PRICE row) as [p|y] eqn:Ep.
    + destruct (number_of re WEIGHT row) as [w|y] eqn:Ew.
      * destruct (Float.is_zero w); intros H; inversion H; auto.
      * apply number_of_raises in Ew. destruct Ew as [->|Ew]; [discriminate|].
        apply K. eapply extract_value_raises; eassumption.
    + apply number_of_raises in Ep. destruct Ep as [->|Ep]; [discriminate|].
      apply K. eapply extract_value_raises; eassumption.
  - apply K. eapply extract_value_raises; eassumption.
Qed.

Lemma verdict_produced (re : regex_engine) (file_name : str)
    (row : RawRecord) (e : entry) :
  verdict_of re file_name row = Accepts e <-> produced re file_name row e.
Proof.
  unfold verdict_of, produced. split.
  - destruct (extract_value re row NAME_PATTERN) as [name|y];
      [|destruct (catches_type_or_value y); discriminate].
    destruct (number_of re PRICE row) as [p|y];
      [|destruct (catches_type_or_value y); discriminate].
    destruct (number_of re WEIGHT row) as [w|y];
      [|destruct (catches_type_or_value y); discriminate].
    destruct (Float.is_zero w) eqn:Hz; [discriminate|].
    intros H. inversion H; subst. exists name, p, w. auto.
  - intros (name & p & w & -> & -> & -> & -> & ->). reflexivity.
Qed.

(** A row whose weight is zero, name and price being there: the
    division raises, nothing is appended and nothing is reported. *)
Lemma row_handle_zero_weight (re : regex_engine) (file_name : str)
    (row : RawRecord) (name : str) (p w : float) (s : state) :
  extract_value re row NAME_PATTERN = Ok name ->
  number_of re PRICE row = Ok p ->
  number_of re WEIGHT row = Ok w ->
  Float.is_zero w = true ->
  row_handle re file_name row s = (Raise ZeroDivisionError, s).
Proof.
  intros Hn Hp Hw Hz. rewrite row_handle_verdict. unfold verdict_of.
  now rewrite Hn, Hp, Hw, Hz.
Qed.

(** C1, as the code behaves.  The row [Молоко; 80,5; 0] has a weight
    that parses to zero; [row_handle] raises [ZeroDivisionError], which
    its [except (TypeError, ValueError)] does not catch: the row is not
    reported, and the load of a file with this row and a good one after
    it ends with the exception, the good row never read. *)
Theorem zero_weight_row_aborts_load :
  number_of Re.engine WEIGHT zero_row = Ok (S754_zero false)
  /\ row_handle Re.engine (u "price_1.csv") zero_row s0
     = (Raise ZeroDivisionError, s0)
  /\ load_prices Re.engine (one_file (u "price_1.csv") [zero_row; milk_row])
                 (u ".") s0
     = (Raise ZeroDivisionError, s0).
Proof. repeat split; vm_compute; reflexivity. Qed.

(** C3. A row whose PRICE and WEIGHT columns hold texts that, the
    comma replaced by a point, parse to the numbers [p] and [w], with
    [w] not zero, gives the entry of price [p], weight [w] and ratio
    [round(p / w, 2)], with the name that the NAME field returns; it
    gives no entry when the NAME field raises.  Under the header
    [товар; цена; вес], the row [Молоко; 80,5; 1] gives the entry
    [Молоко, 80.5, 1.0, 80.5]; the row [Сыр; 100; 3] the ratio 33.33;
    the row [Масло; 2,675; 1] the ratio 2.67, the double 2.675 being
    below the half; the row [Соль; 1; 8] the ratio 0.12, the half
    0.125 going to the even hundredth. *)
Theorem row_handle_ratio :
  (forall (re : regex_engine) (file_name : str) (row : RawRecord)
          (price_text weight_text : str) (p w : float) (s : state),
      extract_value re row PRICE_PATTERN = Ok price_text ->
      Float.of_str (Str.replace comma point price_text) = Some p ->
      extract_value re row WEIGHT_PATTERN = Ok weight_text ->
      Float.of_str (Str.replace comma point weight_text) = Some w ->
      Float.is_zero w = false ->
      (forall name,
          extract_value re row NAME_PATTERN = Ok name ->
          row_handle re file_name row s
          = (Ok tt,
             State (data s ++ [Entry file_name name p w
                                     (Float.round2 (Float.div p w))])
                   (log s)))
      /\ (forall x,
            extract_value re row NAME_PATTERN = Raise x ->
            data (snd (row_handle re file_name row s)) = data s))
  /\ row_handle Re.engine (u "price_1.csv") milk_row s0
     = (Ok tt,
        State [Entry (u "price_1.csv") (u "Молоко")
                     (S754_finite false 5664683906301952 (-46))
                     (S754_finite false 4503599627370496 (-52))
                     (S754_finite false 5664683906301952 (-46))] [])
  /\ row_handle Re.engine (u "price_1.csv") cheese_row s0
     = (Ok tt,
        State [Entry (u "price_1.csv") (u "Сыр")
                     (S754_finite false 7036874417766400 (-46))
                     (S754_finite false 6755399441055744 (-51))
                     (S754_finite false 4690780486883082 (-47))] [])
  /\ row_handle Re.engine (u "price_1.csv") butter_row s0
     = (Ok tt,
        State [Entry (u "price_1.csv") (u "Масло")
                     (S754_finite false 6023564501608038 (-51))
                     (S754_finite false 4503599627370496 (-52))
                     (S754_finite false 6012305502539612 (-51))] [])
  /\ row_handle Re.engine (u "price_1.csv") salt_row s0
     = (Ok tt,
        State [Entry (u "price_1.csv") (u "Соль")
                     (S754_finite false 4503599627370496 (-52))
                     (S754_finite false 4503599627370496 (-49))
                     (S754_finite false 8646911284551352 (-56))] []).
Proof.
  split; [|repeat split; vm_compute; reflexivity].
  intros re file_name row price_text weight_text p w s Ep Fp Ew Fw Hz.
  assert (Np : number_of re PRICE row = Ok p).
  { rewrite (number_of_text re PRICE row price_text Ep).
    unfold py_float. now rewrite Fp. }
  assert (Nw : number_of re WEIGHT row = Ok w).
  { rewrite (number_of_text re WEIGHT row weight_text Ew).
    unfold py_float. now rewrite Fw. }
  split.
  - intros name En. rewrite row_handle_verdict. unfold verdict_of.
    now rewrite En, Np, Nw, Hz.
  - intros x Ex. rewrite row_handle_verdict. unfold verdict_of. rewrite Ex.
    destruct (catches_type_or_value x); reflexivity.
Qed.

Lemma row_handle_ratio_witness :
  (forall name,
      extract_value Re.engine cheese_row NAME_PATTERN = Ok name ->
      row_handle Re.engine (u "price_1.csv") cheese_row s0
      = (Ok tt,
         State (data s0
                ++ [Entry (u "price_1.csv") name
                          (S754_finite false 7036874417766400 (-46))
                          (S754_finite false 6755399441055744 (-51))
                          (Float.round2
                             (Float.div
                                (S754_finite false 7036874417766400 (-46))
                                (S754_finite false 6755399441055744 (-51))))])
               (log s0)))
  /\ (forall x,
        extract_value Re.engine cheese_row NAME_PATTERN = Raise x ->
        data (snd (row_handle Re.engine (u "price_1.csv") cheese_row s0))
        = data s0).
Proof.
  apply (proj1 row_handle_ratio Re.engine (u "price_1.csv") cheese_row
               (u "100") (u "3")
               (S754_finite false 7036874417766400 (-46))
               (S754_finite false 6755399441055744 (-51)) s0).
  - vm_compute; reflexivity.
  - vm_compute; reflexivity.
  - vm_compute; reflexivity.
  - vm_compute; reflexivity.
  - vm_compute; reflexivity.
Defined.

Lemma unusable_number (re : regex_engine) (f : field) (row : RawRecord) :
  re (pattern_of f) <> None ->
  unusable re f row ->
  number_of re f row
  = Raise (if has_surplus row then
             match extract_value re row (pattern_of f) with
             | Raise TypeError => TypeError
             | _ => ValueError
             end
           else ValueError).
Proof.
  intros E [H|(text & Ht & Hf)].
  - unfold number_of. rewrite (extract_value_missing re f row E H).
    destruct (has_surplus row); reflexivity.
  - rewrite (number_of_text re f row text Ht). unfold py_float.
    rewrite Hf, Ht. destruct (has_surplus row); reflexivity.
Qed.

Lemma unusable_skips (re : regex_engine) (f : field) (row : RawRecord) :
  re (pattern_of f) <> None ->
  unusable re f row ->
  exists x,
    number_of re f row = Raise x
    /\ catches_type_or_value x = true
    /\ (has_surplus row = false -> x = ValueError).
Proof.
  intros E H. rewrite (unusable_number re f row E H).
  eexists. split; [reflexivity|]. split.
  - destruct (has_surplus row); [|reflexivity].
    destruct (extract_value re row (pattern_of f)) as [|[]]; reflexivity.
  - intros ->. reflexivity.
Qed.

(** What a field raises on a row on which no [strip] of a missing
    cell is attempted. *)
Lemma text_row_raises (re : regex_engine) (f : field) (row : RawRecord)
    (x : exn) :
  patterns_compile re ->
  resolves_to_text re row ->
  extract_value re row (pattern_of f) = Raise x ->
  x = TypeError /\ has_surplus row = true.
Proof.
  intros Hc Ht E.
  destruct (extract_value_raises re row _ x E) as [-> | [-> | ->]].
  - split; [reflexivity|]. now apply (extract_value_type_error re row _ E).
  - now apply Ht in E.
  - now apply (extract_value_no_re_error re row _ (Hc f)) in E.
Qed.

(** A row that is not shorter than its header is such a row. *)
Lemma named_texts_resolve (re : regex_engine) (row : RawRecord) :
  named_texts row = true -> resolves_to_text re row.
Proof.
  intros H f. induction row as [|[key value] row IH]; cbn [extract_value];
    [discriminate|].
  cbn in H. apply andb_prop in H. destruct H as [Hc Hr].
  unfold re_search. destruct (re (pattern_of f)) as [found|]; [|discriminate].
  destruct key as [name|]; [|discriminate].
  destruct (found name); [|now apply IH].
  destruct value; cbn; discriminate.
Qed.

(** A row with an unusable price or weight comes to a report. *)
Lemma unusable_verdict (re : regex_engine) (file_name : str)
    (row : RawRecord) :
  patterns_compile re ->
  resolves_to_text re row ->
  unusable re PRICE row \/ unusable re WEIGHT row ->
  exists x,
    verdict_of re file_name row = Skips x
    /\ (x = ValueError \/ x = TypeError)
    /\ (has_surplus row = false -> x = ValueError).
Proof.
  intros Hc Ht H.
  assert (K : forall x, catches_type_or_value x = true ->
                        x = ValueError \/ x = TypeError).
  { intros x. destruct x; cbn; intros Hx; try discriminate; auto. }
  assert (T : forall f x, extract_value re row (pattern_of f) = Raise x ->
                          exists y,
                            (if catches_type_or_value x then Skips x
                             else Aborts x) = Skips y
                            /\ (y = ValueError \/ y = TypeError)
                            /\ (has_surplus row = false -> y = ValueError)).
  { intros f x E. destruct (text_row_raises re f row x Hc Ht E) as [-> Hs].
    exists TypeError. cbn. split; [reflexivity|]. split; [now right|].
    intros Hn. congruence. }
  assert (U : forall f, unusable re f row ->
                        exists y,
                          number_of re f row = Raise y
                          /\ (if catches_type_or_value y then Skips y
                              else Aborts y) = Skips y
                          /\ (y = ValueError \/ y = TypeError)
                          /\ (has_surplus row = false -> y = ValueError)).
  { intros f Hu.
    destruct (unusable_skips re f row (Hc f) Hu) as (y & Hy & Hcatch & Hv).
    exists y. rewrite Hcatch. auto. }
  unfold verdict_of.
  destruct (extract_value re row NAME_PATTERN) as [name|x] eqn:En;
    [|exact (T NAME x En)].
  destruct H as [H|H].
  - destruct (U PRICE H) as (y & -> & Hy). exists y. exact Hy.
  - destruct (number_of re PRICE row) as [p|x] eqn:Ep.
    + destruct (U WEIGHT H) as (y & -> & Hy). exists y. exact Hy.
    + destruct (number_of_raises re PRICE row x Ep) as [->|Ex].
      * exists ValueError. cbn. auto.
      * exact (T PRICE x Ex).
Qed.

(** C7, as stated, fails in two ways.  The row [5; 2] under the
    header [цена; вес] has no name column, yet it is accepted, with
    the empty name, and nothing is reported.  The row [Сыр] under the
    header [товар; цена] has no weight column, yet it is not reported:
    its price is [None], [strip] raises [AttributeError], which
    nothing catches, and the load ends there, the good row after it
    never read. *)
Lemma missing_field_is_not_skipped :
  missing Re.engine NAME nameless_row
  /\ row_handle Re.engine (u "price_1.csv") nameless_row s0
     = (Ok tt,
        State [Entry (u "price_1.csv") []
                     (S754_finite false 5629499534213120 (-50))
                     (S754_finite false 4503599627370496 (-51))
                     (S754_finite false 5629499534213120 (-51))] [])
  /\ missing Re.engine WEIGHT short_row
  /\ row_handle Re.engine (u "price_1.csv") short_row s0
     = (Raise AttributeError, s0)
  /\ load_prices Re.engine (one_file (u "price_1.csv") [short_row; milk_row])
                 (u ".") s0
     = (Raise AttributeError, s0).
Proof.
  split; [|split; [|split; [|split]]].
  - intros name value [H|[H|[]]]; inversion H; subst; vm_compute; reflexivity.
  - vm_compute; reflexivity.
  - intros name value [H|[H|[]]]; inversion H; subst; vm_compute; reflexivity.
  - vm_compute; reflexivity.
  - vm_compute; reflexivity.
Qed.

(** C7, amended.  Take a row on which no field is looked up in a
    column that the row is too short to fill (a row that is not
    shorter than its header is one).  When its PRICE or its
    WEIGHT field is missing or holds a text that is not a number (the
    empty text included), the row is reported with its content and
    skipped: nothing is appended, and the loop over the rows goes on
    with the rows that follow.  The report carries [ValueError], or
    [TypeError] when the row has surplus cells under the key [None]
    and a search has run into them. *)
Theorem bad_number_row_is_skipped (re : regex_engine) (file_name : str)
    (row : RawRecord) (s : state) :
  patterns_compile re ->
  resolves_to_text re row ->
  unusable re PRICE row \/ unusable re WEIGHT row ->
  exists x,
    (x = ValueError \/ x = TypeError)
    /\ (has_surplus row = false -> x = ValueError)
    /\ row_handle re file_name row s
       = (Ok tt, State (data s) (log s ++ [RowError row x]))
    /\ forall rest,
         for_each (row :: rest) (row_handle re file_name) s
         = for_each rest (row_handle re file_name)
                    (State (data s) (log s ++ [RowError row x])).
Proof.
  intros Hc Ht H.
  destruct (unusable_verdict re file_name row Hc Ht H) as (x & V & Hx & Hv).
  assert (E : row_handle re file_name row s
              = (Ok tt, State (data s) (log s ++ [RowError row x]))).
  { now rewrite row_handle_verdict, V. }
  exists x. repeat split; auto.
  intros rest. cbn [for_each]. unfold bind. now rewrite E.
Qed.

Lemma engine_compiles_fields : patterns_compile Re.engine.
Proof. intros f. rewrite engine_field. discriminate. Qed.

Lemma bad_number_row_is_skipped_witness :
  exists x,
    (x = ValueError \/ x = TypeError)
    /\ (has_surplus priceless_row = false -> x = ValueError)
    /\ row_handle Re.engine (u "price_1.csv") priceless_row s0
       = (Ok tt, State (data s0) (log s0 ++ [RowError priceless_row x]))
    /\ forall rest,
         for_each (priceless_row :: rest)
                  (row_handle Re.engine (u "price_1.csv")) s0
         = for_each rest (row_handle Re.engine (u "price_1.csv"))
                    (State (data s0) (log s0 ++ [RowError priceless_row x])).
Proof.
  apply (bad_number_row_is_skipped Re.engine (u "price_1.csv")
           priceless_row s0).
  - exact engine_compiles_fields.
  - apply named_texts_resolve. reflexivity.
  - left. left.
    intros name value [H|[H|[]]]; inversion H; subst; vm_compute; reflexivity.
Defined.

(** A row that gives a number for a field has a named column. *)
Lemma number_of_column (re : regex_engine) (f : field) (row : RawRecord)
    (x : float) :
  number_of re f row = Ok x -> exists name value, In (Some name, value) row.
Proof.
  intros H. destruct (number_of_parts re f row x H) as (text & Et & Ef).
  destruct (extract_value_origin re row _ text Et)
    as [->|(name & value & Hin & _)].
  - vm_compute in Ef. discriminate Ef.
  - now exists name, (Text value).
Qed.

(** C10, as stated, fails on a row longer than its header.  The row
    [300; 1; extra] under the header [цена; вес] has no name column,
    and its price and weight are the numbers 300 and 1; the search
    for the name reaches the key [None] of the surplus cell and raises
    [TypeError]: the row is reported and skipped. *)
Lemma surplus_cell_skips_nameless_row :
  missing Re.engine NAME long_nameless_row
  /\ number_of Re.engine PRICE long_nameless_row
     = Ok (S754_finite false 5277655813324800 (-44))
  /\ number_of Re.engine WEIGHT long_nameless_row
     = Ok (S754_finite false 4503599627370496 (-52))
  /\ row_handle Re.engine (u "price_1.csv") long_nameless_row s0
     = (Ok tt, State [] [RowError long_nameless_row TypeError]).
Proof.
  split; [|repeat split; vm_compute; reflexivity].
  intros name value [H|[H|[H|[]]]]; inversion H; subst; vm_compute; reflexivity.
Qed.

(** C10, amended.  Take a row in which no column is named after
    NAME, while PRICE and WEIGHT give numbers and the weight is not
    zero.  When the row has no surplus cells, it is not skipped: an
    entry with the empty name is appended and nothing is reported.
    When it has surplus cells, the search for the name raises
    [TypeError] at the key [None]: the row is reported and skipped. *)
Theorem missing_name_is_accepted (re : regex_engine) (file_name : str)
    (row : RawRecord) (p w : float) (s : state) :
  missing re NAME row ->
  number_of re PRICE row = Ok p ->
  number_of re WEIGHT row = Ok w ->
  Float.is_zero w = false ->
  (has_surplus row = false ->
   extract_value re row NAME_PATTERN = Ok []
   /\ row_handle re file_name row s
      = (Ok tt,
         State (data s ++ [Entry file_name [] p w
                                 (Float.round2 (Float.div p w))])
               (log s)))
  /\ (has_surplus row = true ->
      extract_value re row NAME_PATTERN = Raise TypeError
      /\ row_handle re file_name row s
         = (Ok tt, State (data s) (log s ++ [RowError row TypeError]))).
Proof.
  intros Hm Hp Hw Hz.
  assert (E : re (pattern_of NAME) <> None).
  { destruct (number_of_column re PRICE row p Hp) as (name & value & Hin).
    apply (re_search_compiles re _ (Some name) false). now apply (Hm name value). }
  pose proof (extract_value_missing re NAME row E Hm) as En.
  cbn [pattern_of] in En.
  split; intros Hs; rewrite Hs in En; (split; [exact En|]);
    rewrite row_handle_verdict; unfold verdict_of; rewrite En.
  - now rewrite Hp, Hw, Hz.
  - reflexivity.
Qed.

Lemma missing_name_is_accepted_witness :
  (has_surplus nameless_row = false ->
   extract_value Re.engine nameless_row NAME_PATTERN = Ok []
   /\ row_handle Re.engine (u "price_1.csv") nameless_row s0
      = (Ok tt,
         State (data s0
                ++ [Entry (u "price_1.csv") []
                          (S754_finite false 5629499534213120 (-50))
                          (S754_finite false 4503599627370496 (-51))
                          (Float.round2
                             (Float.div
                                (S754_finite false 5629499534213120 (-50))
                                (S754_finite false 4503599627370496 (-51))))])
               (log s0)))
  /\ (has_surplus nameless_row = true ->
      extract_value Re.engine nameless_row NAME_PATTERN = Raise TypeError
      /\ row_handle Re.engine (u "price_1.csv") nameless_row s0
         = (Ok tt,
            State (data s0) (log s0 ++ [RowError nameless_row TypeError]))).
Proof.
  apply (missing_name_is_accepted Re.engine (u "price_1.csv") nameless_row
           (S754_finite false 5629499534213120 (-50))
           (S754_finite false 4503599627370496 (-51)) s0).
  - intros name value [H|[H|[]]]; inversion H; subst; vm_compute; reflexivity.
  - vm_compute; reflexivity.
  - vm_compute; reflexivity.
  - vm_compute; reflexivity.
Defined.
(** ** Commands: what they keep and what they depend on *)

Section Commands.

Variable Q : list entry -> Prop.

Lemma keeps_ret {A} (a : A) : keeps Q (ret a).
Proof. intros s H; exact H. Qed.

Lemma keeps_raise {A} (e : exn) : keeps Q (@raise A e).
Proof. intros s H; exact H. Qed.

Lemma keeps_lift {A} (r : result A) : keeps Q (lift r).
Proof. intros s H; exact H. Qed.

Lemma keeps_emit (ev : event) : keeps Q (emit ev).
Proof. intros s H; exact H. Qed.

Lemma keeps_get_data : keeps Q get_data.
Proof. intros s H; exact H. Qed.

Lemma keeps_bind {A B} (m : M A) (k : A -> M B) :
  keeps Q m -> (forall a, keeps Q (k a)) -> keeps Q (bind m k).
Proof.
  intros Hm Hk s H. unfold bind. specialize (Hm s H).
  destruct (m s) as [[a|e] s']; simpl in *; auto. now apply Hk.
Qed.

Lemma keeps_try {A} (m : M A) (c : exn -> bool) (h : exn -> M A) :
  keeps Q m -> (forall e, keeps Q (h e)) -> keeps Q (try_except m c h).
Proof.
  intros Hm Hh s H. unfold try_except. specialize (Hm s H).
  destruct (m s) as [[a|e] s']; simpl in *; auto.
  destruct (c e); simpl; auto. now apply Hh.
Qed.

Lemma keeps_for_each {A} (l : list A) (body : A -> M unit) :
  (forall x, In x l -> keeps Q (body x)) -> keeps Q (for_each l body).
Proof.
  induction l as [|x l IH]; intros Hb; cbn [for_each].
  - apply keeps_ret.
  - apply keeps_bind.
    + apply Hb. now left.
    + intros _. apply IH. intros y Hy. apply Hb. now right.
Qed.

Lemma keeps_write_file (w : world) (filename : str) (rows : list entry) :
  keeps Q (write_file w filename rows).
Proof.
  unfold write_file. destruct (writable w filename);
    [apply keeps_emit | apply keeps_raise].
Qed.

End Commands.

Section Regular.

Lemma regular_ret {A} (a : A) : regular (ret a).
Proof. intros d. exists (Ok a), d, []. intros lg. now rewrite app_nil_r. Qed.

Lemma regular_raise {A} (e : exn) : regular (@raise A e).
Proof. intros d. exists (Raise e), d, []. intros lg. now rewrite app_nil_r. Qed.

Lemma regular_lift {A} (r : result A) : regular (lift r).
Proof. intros d. exists r, d, []. intros lg. now rewrite app_nil_r. Qed.

Lemma regular_emit (ev : event) : regular (emit ev).
Proof. intros d. exists (Ok tt), d, [ev]. reflexivity. Qed.

Lemma regular_get_data : regular get_data.
Proof. intros d. exists (Ok d), d, []. intros lg. now rewrite app_nil_r. Qed.

Lemma regular_set_data (d0 : list entry) : regular (set_data d0).
Proof. intros d. exists (Ok tt), d0, []. intros lg. now rewrite app_nil_r. Qed.

Lemma regular_bind {A B} (m : M A) (k : A -> M B) :
  regular m -> (forall a, regular (k a)) -> regular (bind m k).
Proof.
  intros Hm Hk d. destruct (Hm d) as (r & d1 & l1 & E1).
  destruct r as [a|e].
  - destruct (Hk a d1) as (r2 & d2 & l2 & E2).
    exists r2, d2, (l1 ++ l2). intros lg. unfold bind.
    now rewrite E1, E2, app_assoc.
  - exists (Raise e), d1, l1. intros lg. unfold bind. now rewrite E1.
Qed.

Lemma regular_try {A} (m : M A) (c : exn -> bool) (h : exn -> M A) :
  regular m -> (forall e, regular (h e)) -> regular (try_except m c h).
Proof.
  intros Hm Hh d. destruct (Hm d) as (r & d1 & l1 & E1).
  destruct r as [a|e].
  - exists (Ok a), d1, l1. intros lg. unfold try_except. now rewrite E1.
  - destruct (c e) eqn:Ec.
    + destruct (Hh e d1) as (r2 & d2 & l2 & E2).
      exists r2, d2, (l1 ++ l2). intros lg. unfold try_except.
      now rewrite E1, Ec, E2, app_assoc.
    + exists (Raise e), d1, l1. intros lg. unfold try_except.
      now rewrite E1, Ec.
Qed.

Lemma regular_for_each {A} (l : list A) (body : A -> M unit) :
  (forall x, regular (body x)) -> regular (for_each l body).
Proof.
  intros Hb. induction l as [|x l IH]; cbn [for_each].
  - apply regular_ret.
  - apply regular_bind; auto.
Qed.

Lemma regular_row_handle (re : regex_engine) (file_name : str)
    (row : RawRecord) :
  regular (row_handle re file_name row).
Proof.
  unfold row_handle. apply regular_try.
  - repeat (apply regular_bind; [apply regular_lift || apply regular_get_data
                                | intros ?]).
    apply regular_set_data.
  - intros e. apply regular_emit.
Qed.

Lemma regular_load_data (re : regex_engine) (w : world) (file_path : str) :
  regular (load_data re w file_path).
Proof.
  unfold load_data. apply regular_try.
  - apply regular_bind.
    + apply regular_for_each. intros row. apply regular_row_handle.
    + intros _. destruct (snd (read_csv w file_path));
        [apply regular_raise | apply regular_ret].
  - intros e. apply regular_emit.
Qed.

End Regular.

(** ** Loading *)

Lemma keeps_row_handle (re : regex_engine) (P : entry -> Prop)
    (file_name : str) (row : RawRecord) :
  (forall e, produced re file_name row e -> P e) ->
  keeps (Forall P) (row_handle re file_name row).
Proof.
  intros HP s H. rewrite row_handle_verdict.
  destruct (verdict_of re file_name row) as [e|x|x] eqn:V; auto.
  cbn. apply Forall_app. split; auto.
  constructor; auto. apply HP. now apply verdict_produced.
Qed.

Lemma keeps_load_data (re : regex_engine) (P : entry -> Prop) (w : world)
    (file_path : str) :
  (forall row e,
      In row (fst (read_csv w file_path)) ->
      produced re file_path row e -> P e) ->
  keeps (Forall P) (load_data re w file_path).
Proof.
  intros HP. unfold load_data. apply keeps_try.
  - apply keeps_bind.
    + apply keeps_for_each. intros row Hin. apply keeps_row_handle. eauto.
    + intros _. destruct (snd (read_csv w file_path));
        [apply keeps_raise | apply keeps_ret].
  - intros e. apply keeps_emit.
Qed.

Lemma load_prices_of_pass (re : regex_engine) (w : world) (directory : str)
    (s : state) :
  Forall (of_pass re w directory) (data (snd (load_prices re w directory s))).
Proof.
  unfold load_prices, bind, set_data, lift.
  destruct (listdir w directory) as [names|e] eqn:El; [|constructor].
  apply (keeps_for_each (Forall (of_pass re w directory))); [|constructor].
  intros filename Hin. destruct (is_price_list filename) eqn:Ep;
    [|apply keeps_ret].
  apply keeps_load_data. intros row e Hrow Hprod.
  assert (Ef : file_name e = filename).
  { destruct Hprod as (name & p & x & _ & _ & _ & _ & ->). reflexivity. }
  exists names, row. rewrite Ef. auto.
Qed.

Lemma of_pass_weight (re : regex_engine) (w : world) (directory : str)
    (e : entry) :
  of_pass re w directory e -> Float.is_zero (weight e) = false.
Proof.
  intros (names & row & _ & _ & _ & _ & name & p & x & _ & _ & _ & Hz & ->).
  exact Hz.
Qed.

(** C9. [load_prices] empties the catalogue first: its outcome and the
    catalogue it leaves are those of a load into the empty catalogue,
    whatever the catalogue held before, and every entry left comes from
    a row of a price list listed in this pass. *)
Theorem load_prices_replaces (re : regex_engine) (w : world)
    (directory : str) (s : state) :
  load_prices re w directory s
  = (fst (load_prices re w directory s0),
     State (data (snd (load_prices re w directory s0)))
           (log s ++ log (snd (load_prices re w directory s0))))
  /\ (forall s', data (snd (load_prices re w directory s))
                 = data (snd (load_prices re w directory s')))
  /\ Forall (of_pass re w directory)
            (data (snd (load_prices re w directory s))).
Proof.
  assert (R : exists r d l, forall s1,
               load_prices re w directory s1 = (r, State d (log s1 ++ l))).
  { assert (Rr : regular
               (names <- lift (listdir w directory) ;;
                for_each names
                  (fun filename =>
                     if is_price_list filename then load_data re w filename
                     else ret tt))).
    { apply regular_bind; [apply regular_lift|]. intros names.
      apply regular_for_each. intros filename.
      destruct (is_price_list filename);
        [apply regular_load_data | apply regular_ret]. }
    destruct (Rr []) as (r & d & l & E). exists r, d, l. intros s1.
    unfold load_prices. unfold bind at 1. cbn [set_data]. apply E. }
  destruct R as (r & d & l & E).
  split; [|split].
  - rewrite (E s0), (E s). reflexivity.
  - intros s'. now rewrite (E s), (E s').
  - apply load_prices_of_pass.
Qed.

(** ** Sorting *)

Section SortingFacts.

Context {A K : Type}.
Variable key : A -> K.
Variable lt : K -> K -> bool.

Lemma insert_perm (x : A) (l : list A) :
  Permutation (x :: l) (insert key lt x l).
Proof.
  induction l as [|y l IH]; simpl; auto.
  destruct (lt (key y) (key x)); auto.
  rewrite perm_swap. now constructor.
Qed.

Lemma sort_by_cons (x : A) (l : list A) :
  sort_by key lt (x :: l) = insert key lt x (sort_by key lt l).
Proof. reflexivity. Qed.

Lemma sort_by_perm (l : list A) : Permutation l (sort_by key lt l).
Proof.
  induction l as [|x l IH]; [constructor|].
  rewrite sort_by_cons, <- insert_perm. now constructor.
Qed.

Lemma sort_by_fixed (l : list A) :
  StronglySorted (in_order key lt) l -> sort_by key lt l = l.
Proof.
  induction 1 as [|x l Hs IH Hx]; [reflexivity|].
  rewrite sort_by_cons, IH.
  destruct l as [|y l]; simpl; auto.
  inversion Hx as [|? ? Hy _]; subst. unfold in_order in Hy.
  now rewrite Hy.
Qed.

(** The keys on which [lt] is a strict weak order. *)
Variable good : K -> Prop.
Hypothesis lt_asym :
  forall a b, good a -> good b -> lt a b = true -> lt b a = false.
Hypothesis le_trans :
  forall a b c, good a -> good b -> good c ->
    lt b a = false -> lt c b = false -> lt c a = false.

Lemma insert_sorted (x : A) (l : list A) :
  good (key x) -> Forall (fun y => good (key y)) l ->
  StronglySorted (in_order key lt) l -> StronglySorted (in_order key lt) (insert key lt x l).
Proof.
  intros Hx Hl Hs. induction Hs as [|y l Hs IH Hy]; simpl.
  - repeat constructor.
  - inversion Hl as [|? ? Gy Gl]; subst.
    destruct (lt (key y) (key x)) eqn:E.
    + constructor; auto.
      apply (Permutation_Forall (insert_perm x l)).
      constructor; auto. unfold in_order. now apply lt_asym.
    + constructor; [now constructor|].
      constructor; [exact E|].
      rewrite Forall_forall in *. intros z Hz. unfold in_order.
      apply (le_trans (key x) (key y) (key z));
        [exact Hx | exact Gy | now apply Gl | exact E | now apply Hy].
Qed.

Lemma sort_by_good (l : list A) :
  Forall (fun y => good (key y)) l -> Forall (fun y => good (key y)) (sort_by key lt l).
Proof. intros H. now apply (Permutation_Forall (sort_by_perm l)). Qed.

Lemma sort_by_sorted (l : list A) :
  Forall (fun y => good (key y)) l -> StronglySorted (in_order key lt) (sort_by key lt l).
Proof.
  induction 1 as [|x l Hx Hl IH]; [constructor|].
  rewrite sort_by_cons. apply insert_sorted; auto. now apply sort_by_good.
Qed.

Lemma insert_filter_tie (k : K) (x : A) (l : list A) :
  good k -> good (key x) -> Forall (fun y => good (key y)) l ->
  filter (fun y => tie lt k (key y)) (insert key lt x l)
  = filter (fun y => tie lt k (key y)) (x :: l).
Proof.
  intros Gk Gx Gl. induction Gl as [|y l Gy Gl IH]; [reflexivity|].
  cbn [insert]. destruct (lt (key y) (key x)) eqn:E; [|reflexivity].
  cbn [filter] in *. rewrite IH.
  destruct (tie lt k (key x)) eqn:Tx; [|reflexivity].
  destruct (tie lt k (key y)) eqn:Ty; [|reflexivity].
  exfalso. unfold tie in Tx, Ty.
  apply andb_prop in Tx. destruct Tx as [Tx1 Tx2].
  apply andb_prop in Ty. destruct Ty as [Ty1 Ty2].
  apply negb_true_iff in Tx1, Tx2, Ty1, Ty2.
  assert (F : lt (key y) (key x) = false)
    by (apply (le_trans (key x) k (key y)); auto).
  congruence.
Qed.

Lemma sort_by_stable (k : K) (l : list A) :
  good k -> Forall (fun y => good (key y)) l ->
  filter (fun y => tie lt k (key y)) (sort_by key lt l)
  = filter (fun y => tie lt k (key y)) l.
Proof.
  intros Gk Gl. induction Gl as [|x l Gx Gl IH]; [reflexivity|].
  rewrite sort_by_cons.
  rewrite insert_filter_tie; auto using sort_by_good.
  cbn [filter]. now rewrite IH.
Qed.

End SortingFacts.

(** ** The order of floats *)

Module FloatOrder.

Local Open Scope Z_scope.

Lemma compare_antisym (x y : float) :
  SFcompare y x = option_map CompOpp (SFcompare x y).
Proof.
  destruct x as [sx|sx| |sx mx ex], y as [sy|sy| |sy my ey]; simpl;
    try (destruct sx); try (destruct sy); try reflexivity.
  - rewrite (Z.compare_antisym ex ey).
    destruct (ex ?= ey) eqn:E; simpl; auto.
    change (Pos.compare_cont Eq mx my) with (Pos.compare mx my).
    change (Pos.compare_cont Eq my mx) with (Pos.compare my mx).
    now rewrite (Pos.compare_antisym mx my), CompOpp_involutive.
  - rewrite (Z.compare_antisym ex ey).
    destruct (ex ?= ey) eqn:E; simpl; auto.
    change (Pos.compare_cont Eq mx my) with (Pos.compare mx my).
    change (Pos.compare_cont Eq my mx) with (Pos.compare my mx).
    now rewrite (Pos.compare_antisym mx my).
Qed.

Lemma compare_some (x y : float) :
  Float.is_nan x = false -> Float.is_nan y = false ->
  exists c, SFcompare x y = Some c.
Proof.
  destruct x, y; simpl; intros; try discriminate; eauto.
Qed.

Lemma ltb_false_leb (x y : float) :
  Float.is_nan x = false -> Float.is_nan y = false ->
  Float.ltb y x = false -> Float.leb x y = true.
Proof.
  intros Hx Hy. unfold Float.ltb, Float.leb, SFltb, SFleb.
  rewrite (compare_antisym x y).
  destruct (compare_some x y Hx Hy) as [c ->]. now destruct c.
Qed.

Lemma leb_ltb_false (x y : float) :
  Float.leb x y = true -> Float.ltb y x = false.
Proof.
  unfold Float.ltb, Float.leb, SFltb, SFleb.
  rewrite (compare_antisym x y).
  destruct (SFcompare x y) as [[| |]|]; simpl; congruence.
Qed.

Lemma ltb_asym (x y : float) :
  Float.ltb x y = true -> Float.ltb y x = false.
Proof.
  unfold Float.ltb, SFltb. rewrite (compare_antisym x y).
  destruct (SFcompare x y) as [[| |]|]; simpl; congruence.
Qed.

Lemma eqb_tie (x y : float) :
  Float.is_nan x = false -> Float.is_nan y = false ->
  Float.eqb x y = tie Float.ltb x y.
Proof.
  intros Hx Hy. unfold tie, Float.eqb, Float.ltb, SFeqb, SFltb.
  rewrite (compare_antisym x y).
  destruct (compare_some x y Hx Hy) as [c ->]. now destruct c.
Qed.

Lemma eqb_nan (x y : float) : Float.is_nan x = true -> Float.eqb x y = false.
Proof. destruct x; simpl; try discriminate. reflexivity. Qed.

Lemma leb_trans (x y z : float) :
  Float.leb x y = true -> Float.leb y z = true -> Float.leb x z = true.
Proof.
  unfold Float.leb, SFleb.
  destruct x as [sx|sx| |sx mx ex], y as [sy|sy| |sy my ey],
           z as [sz|sz| |sz mz ez]; simpl;
    try (destruct sx); try (destruct sy); try (destruct sz);
    simpl; try congruence;
    change (Pos.compare_cont Eq mx my) with (Pos.compare mx my);
    change (Pos.compare_cont Eq my mz) with (Pos.compare my mz);
    change (Pos.compare_cont Eq mx mz) with (Pos.compare mx mz);
    destruct (Z.compare_spec ex ey), (Z.compare_spec ey ez),
             (Z.compare_spec ex ez); simpl; try congruence; try lia;
    destruct (Pos.compare_spec mx my), (Pos.compare_spec my mz),
             (Pos.compare_spec mx mz); simpl; try congruence; try lia.
Qed.

Lemma ltb_false_trans (a b c : float) :
  Float.is_nan a = false -> Float.is_nan b = false ->
  Float.is_nan c = false ->
  Float.ltb b a = false -> Float.ltb c b = false -> Float.ltb c a = false.
Proof.
  intros Ha Hb Hc H1 H2. apply leb_ltb_false.
  apply (leb_trans a b c); now apply ltb_false_leb.
Qed.

End FloatOrder.

(** ** The catalogue in order of ratio *)

Lemma StronglySorted_weaken {A} (R R' : A -> A -> Prop) (P : A -> Prop)
    (l : list A) :
  (forall a b, P a -> P b -> R a b -> R' a b) ->
  Forall P l -> StronglySorted R l -> StronglySorted R' l.
Proof.
  intros HR HP Hs. induction Hs as [|x l Hs IH Hx]; constructor.
  - apply IH. now inversion HP.
  - inversion HP as [|? ? Px Pl]; subst.
    rewrite Forall_forall in *. intros y Hy. apply HR; auto.
Qed.

Lemma filter_none {A} (f : A -> bool) (l : list A) :
  (forall x, In x l -> f x = false) -> filter f l = [].
Proof.
  induction l as [|x l IH]; intros H; simpl; auto.
  rewrite (H x) by now left. apply IH. intros y Hy. apply H. now right.
Qed.

Lemma sort_by_ratio_perm (l : list entry) : Permutation l (sort_by_ratio l).
Proof. apply sort_by_perm. Qed.

Lemma sort_by_ratio_no_nan (l : list entry) :
  no_nan l -> no_nan (sort_by_ratio l).
Proof. intros H. now apply (Permutation_Forall (sort_by_ratio_perm l)). Qed.

Lemma sort_by_ratio_ascending (l : list entry) :
  no_nan l -> ascending (sort_by_ratio l).
Proof.
  intros H.
  apply (StronglySorted_weaken (in_order ratio Float.ltb)
           (fun a b => Float.leb (ratio a) (ratio b) = true)
           (fun e => Float.is_nan (ratio e) = false)).
  - intros a b Ha Hb. now apply FloatOrder.ltb_false_leb.
  - now apply sort_by_ratio_no_nan.
  - apply (sort_by_sorted ratio Float.ltb (fun k => Float.is_nan k = false));
      auto.
    + intros a b _ _. apply FloatOrder.ltb_asym.
    + apply FloatOrder.ltb_false_trans.
Qed.

Lemma sort_by_ratio_fixed (l : list entry) :
  ascending l -> sort_by_ratio l = l.
Proof.
  intros H. apply sort_by_fixed.
  apply (StronglySorted_weaken _ (in_order ratio Float.ltb)
           (fun _ => True) l) in H; auto.
  - intros a b _ _. apply FloatOrder.leb_ltb_false.
  - rewrite Forall_forall. auto.
Qed.

Lemma sort_by_ratio_stable (l : list entry) (k : float) :
  no_nan l ->
  filter (same_ratio k) (sort_by_ratio l) = filter (same_ratio k) l.
Proof.
  intros H. destruct (Float.is_nan k) eqn:Ek.
  - rewrite !filter_none; auto; intros e _; now apply FloatOrder.eqb_nan.
  - pose proof (sort_by_ratio_no_nan l H) as H'.
    rewrite (filter_ext_in (same_ratio k)
               (fun e => tie Float.ltb k (ratio e)) (sort_by_ratio l)).
    + rewrite (filter_ext_in (same_ratio k)
                 (fun e => tie Float.ltb k (ratio e)) l).
      * apply (sort_by_stable ratio Float.ltb
                 (fun x => Float.is_nan x = false)); auto.
        apply FloatOrder.ltb_false_trans.
      * intros e He. apply FloatOrder.eqb_tie; auto.
        unfold no_nan in H. rewrite Forall_forall in H. now apply H.
    + intros e He. apply FloatOrder.eqb_tie; auto.
      unfold no_nan in H'. rewrite Forall_forall in H'. now apply H'.
Qed.

Lemma export_to_html_all_data (w : world) (fname : str) (s : state) :
  data (snd (export_to_html_all w fname s)) = sort_by_ratio (data s).
Proof.
  unfold export_to_html_all, bind, get_data, set_data, write_file, emit, raise.
  cbn. destruct (writable w fname); reflexivity.
Qed.

(** C8, as stated, fails on a catalogue with a NaN ratio: the sort of
    the ratios [2.0; nan; 1.0] leaves them as they are, the entry of
    ratio 1.0 after the entry of ratio 2.0. *)
Lemma export_leaves_nan_catalogue_unordered :
  snd (load_prices Re.engine nan_world (u ".") s0) = nan_catalogue
  /\ map ratio
       (data (snd (export_to_html_all nan_world (u "output_all.html")
                     nan_catalogue)))
     = [Float.of_decimal false 2 0; S754_nan; Float.of_decimal false 1 0]
  /\ ~ ascending
       (data (snd (export_to_html_all nan_world (u "output_all.html")
                     nan_catalogue))).
Proof.
  split; [vm_compute; reflexivity|].
  split; [vm_compute; reflexivity|].
  rewrite export_to_html_all_data. intros H.
  apply StronglySorted_inv in H. destruct H as [_ H].
  apply Forall_inv in H. vm_compute in H. discriminate H.
Qed.

(** C8, amended.  [export_to_html_all] sorts the catalogue in place:
    what it leaves is a permutation of what was there; when no ratio
    is NaN, the ratios do not decrease along it, the entries of one
    ratio keep their order, and sorting again changes nothing. *)
Theorem export_sorts_catalogue (w : world) (fname : str) (s : state) :
  let s' := snd (export_to_html_all w fname s) in
  Permutation (data s) (data s')
  /\ (no_nan (data s) ->
      ascending (data s')
      /\ (forall k, filter (same_ratio k) (data s')
                    = filter (same_ratio k) (data s))
      /\ data (snd (export_to_html_all w fname s')) = data s').
Proof.
  cbn zeta. rewrite !export_to_html_all_data.
  split; [apply sort_by_ratio_perm|].
  intros H. split; [now apply sort_by_ratio_ascending|].
  split; [intros k; now apply sort_by_ratio_stable|].
  apply sort_by_ratio_fixed. now apply sort_by_ratio_ascending.
Qed.

Lemma export_sorts_catalogue_witness :
  let s' := snd (export_to_html_all milk_world (u "output_all.html")
                   milk_catalogue) in
  ascending (data s')
  /\ (forall k, filter (same_ratio k) (data s')
                = filter (same_ratio k) (data milk_catalogue))
  /\ data (snd (export_to_html_all milk_world (u "output_all.html") s'))
     = data s'.
Proof.
  apply (export_sorts_catalogue milk_world (u "output_all.html")
           milk_catalogue).
  repeat constructor.
Defined.

(** ** Searching *)

Lemma select_compiled (re : regex_engine) (query : str)
    (found : str -> bool) (rows : list entry) :
  re query = Some found ->
  select re query rows = Ok (filter (fun e => found (product_name e)) rows).
Proof.
  intros E. induction rows as [|row rows IH]; cbn [select filter]; auto.
  rewrite (re_search_text re query found _ E), IH. reflexivity.
Qed.

Lemma select_malformed (re : regex_engine) (query : str)
    (rows : list entry) :
  re query = None ->
  rows <> [] -> select re query rows = Raise ReError.
Proof.
  intros E H. destruct rows as [|row rows]; [congruence|].
  cbn [select]. unfold re_search. now rewrite E.
Qed.

(** C5, as stated, fails in two ways: on a catalogue that is not
    empty a malformed query returns nothing, it raises; and on a
    catalogue with a NaN ratio the matching entries come back with
    the ratios [2.0; nan; 1.0], which is not an ascending order. *)
Lemma search_element_raises_or_misorders :
  search_element Re.engine (u "(") milk_catalogue
  = (Raise ReError, milk_catalogue)
  /\ exists found,
       search_element Re.engine (u "мол") nan_catalogue
       = (Ok found, nan_catalogue)
       /\ map ratio found
          = [Float.of_decimal false 2 0; S754_nan; Float.of_decimal false 1 0]
       /\ ~ ascending found.
Proof.
  split; [vm_compute; reflexivity|].
  eexists. split; [vm_compute; reflexivity|].
  split; [vm_compute; reflexivity|].
  intros H. apply StronglySorted_inv in H. destruct H as [_ H].
  apply Forall_inv in H. vm_compute in H. discriminate H.
Qed.

(** C5, amended.  For a query that is a well-formed pattern, [found]
    telling the texts in which [re.search] finds it, letter case
    ignored: when no entry whose name it is found in has a NaN ratio,
    [search_element] changes nothing and returns these entries, each
    as often as the catalogue has it, the ratios not decreasing, and
    the entries of one ratio in the order they have in the catalogue.
    The query [мол] returns [Молоко] (80.5) before [Молочный шоколад]
    (120.0) and not [Сыр]. *)
Theorem search_element_sorted_matches :
  (forall (re : regex_engine) (query : str) (found : str -> bool) (s : state),
      re query = Some found ->
      let hits := filter (fun e => found (product_name e)) (data s) in
      no_nan hits ->
      exists result,
        search_element re query s = (Ok result, s)
        /\ (forall e, In e result
                      <-> In e (data s) /\ found (product_name e) = true)
        /\ Permutation hits result
        /\ ascending result
        /\ (forall k, filter (same_ratio k) result
                      = filter (same_ratio k) hits))
  /\ search_element Re.engine (u "мол") milk_catalogue
     = (Ok [Entry (u "price_1.csv") (u "Молоко")
                  (S754_finite false 5664683906301952 (-46))
                  (S754_finite false 4503599627370496 (-52))
                  (S754_finite false 5664683906301952 (-46));
            Entry (u "price_1.csv") (u "Молочный шоколад")
                  (S754_finite false 8444249301319680 (-46))
                  (S754_finite false 4503599627370496 (-52))
                  (S754_finite false 8444249301319680 (-46))],
        milk_catalogue)
  /\ map product_name (data milk_catalogue)
     = [u "Молочный шоколад"; u "Сыр"; u "Молоко"].
Proof.
  split; [|split; vm_compute; reflexivity].
  intros re query found s E hits Hh. exists (sort_by_ratio hits).
  split; [|split; [|split; [|split]]].
  - unfold search_element, bind, get_data, lift, ret.
    now rewrite (select_compiled re query found (data s) E).
  - intros e. rewrite <- (filter_In (fun e => found (product_name e))).
    fold hits. split; intros H.
    + apply (Permutation_in e (Permutation_sym (sort_by_ratio_perm hits)) H).
    + apply (Permutation_in e (sort_by_ratio_perm hits) H).
  - apply sort_by_ratio_perm.
  - now apply sort_by_ratio_ascending.
  - intros k. now apply sort_by_ratio_stable.
Qed.

Lemma engine_mol :
  Re.engine (u "мол") = Some (Re.found (Re.lit (u "мол"))).
Proof. unfold Re.engine, Re.engine_with. vm_compute Re.compile. reflexivity. Qed.

Lemma search_element_sorted_matches_witness :
  exists result,
    search_element Re.engine (u "мол") milk_catalogue
    = (Ok result, milk_catalogue)
    /\ (forall e, In e result
                  <-> In e (data milk_catalogue)
                      /\ Re.found (Re.lit (u "мол")) (product_name e) = true)
    /\ Permutation
         (filter (fun e => Re.found (Re.lit (u "мол")) (product_name e))
                 (data milk_catalogue)) result
    /\ ascending result
    /\ (forall k, filter (same_ratio k) result
                  = filter (same_ratio k)
                      (filter (fun e => Re.found (Re.lit (u "мол"))
                                          (product_name e))
                              (data milk_catalogue))).
Proof.
  apply (proj1 search_element_sorted_matches Re.engine (u "мол")
               (Re.found (Re.lit (u "мол"))) milk_catalogue).
  - exact engine_mol.
  - repeat constructor.
Defined.

(** ** Malformed queries *)

Lemma startswith_incl (s p : str) :
  Str.startswith s p = true -> forall c, In c p -> In c s.
Proof.
  revert s. induction p as [|a p IH]; intros s H c Hc; [destruct Hc|].
  destruct s as [|x s]; [discriminate|]. simpl in H.
  apply andb_prop in H. destruct H as [Hax Hs].
  apply N.eqb_eq in Hax. subst x. destruct Hc as [->|Hc]; [now left|].
  right. now apply (IH s).
Qed.

Lemma contains_incl (s p : str) :
  Str.contains s p = true -> forall c, In c p -> In c s.
Proof.
  induction s as [|x s IH]; intros H c Hc.
  - cbn [Str.contains] in H. rewrite orb_false_r in H.
    now apply (startswith_incl [] p).
  - cbn [Str.contains] in H. apply orb_prop in H. destruct H as [H|H].
    + now apply (startswith_incl (x :: s) p).
    + right. now apply IH.
Qed.

(** The characters whose lower case is a letter of [exit]. *)
Lemma exit_letter (c : N) :
  In (Str.lower_cp c) (u "exit") ->
  In c [101; 69; 120; 88; 105; 73; 116; 84]%N.
Proof.
  replace (u "exit") with [101; 120; 105; 116]%N by (vm_compute; reflexivity).
  unfold Str.lower_cp. cbn [In].
  destruct (N.leb_spec 65 c), (N.leb_spec c 90), (N.leb_spec 192 c),
    (N.leb_spec c 222), (N.eqb_spec c 215), (N.leb_spec 1040 c),
    (N.leb_spec c 1071), (N.leb_spec 1024 c), (N.leb_spec c 1039);
    cbn [andb negb]; lia.
Qed.

Lemma parse_letters (q : str) :
  Forall (fun c => In c [101; 69; 120; 88; 105; 73; 116; 84]%N) q ->
  forall cur, exists r, Re.parse q cur [] = Re.Compiled r.
Proof.
  induction 1 as [|c q Hc Hq IH]; intros cur.
  - eexists. reflexivity.
  - cbn in Hc.
    destruct Hc as [<-|[<-|[<-|[<-|[<-|[<-|[<-|[<-|[]]]]]]]]];
      cbn [Re.parse]; cbn; apply IH.
Qed.

(** A query that ends the loop is a well-formed pattern. *)
Lemma exit_compiles (beyond : regex_engine) (query : str) :
  is_exit query = true -> Re.engine_with beyond query <> None.
Proof.
  intros X. unfold is_exit in X.
  assert (F : Forall (fun c => In c [101; 69; 120; 88; 105; 73; 116; 84]%N)
                query).
  { rewrite Forall_forall. intros c Hc. apply exit_letter.
    apply (contains_incl _ _ X). unfold Str.lower. now apply in_map. }
  destruct (parse_letters query F (Re.Frame [] [])) as [r Hr].
  unfold Re.engine_with, Re.compile. rewrite Hr. discriminate.
Qed.

(** C6, as stated, fails: with the catalogue of the search scenario
    loaded, the malformed query [(] ends [main]'s loop with
    [re.error]; nothing is printed for it and the next line, [exit],
    is never read, while the loop given [exit] alone would finish. *)
Lemma malformed_query_ends_main :
  Re.compile (u "(") = Re.Malformed
  /\ main_loop Re.engine milk_world [u "("; u "exit"] milk_catalogue
     = (Raise ReError, milk_catalogue)
  /\ main_loop Re.engine milk_world [u "exit"] milk_catalogue
     = (Ok tt, State (data milk_catalogue) (log milk_catalogue ++ [Finished]))
  /\ fst (main Re.engine milk_world (u ".") [u "("; u "exit"] s0)
     = Raise ReError.
Proof. repeat split; vm_compute; reflexivity. Qed.

(** C6, amended.  A query that [re] rejects as malformed, put to a
    catalogue that is not empty, makes [search_element] raise
    [re.error]; neither [find_text] nor [main]'s loop catches it: the
    loop ends with the exception, the lines that follow are not read,
    and the state, catalogue and output, is as it was.  Against the
    empty catalogue the pattern is never used: the search returns no
    entry and the loop goes on.  (The queries that end the loop are
    none of them malformed: an engine of the module [Re] accepts
    them.) *)
Theorem malformed_query_propagates :
  (forall (re : regex_engine) (w : world) (query : str) (rest : list str)
          (s : state),
      re query = None ->
      is_exit query = false ->
      (data s <> [] ->
       search_element re query s = (Raise ReError, s)
       /\ find_text re w query s = (Raise ReError, s)
       /\ main_loop re w (query :: rest) s = (Raise ReError, s))
      /\ (data s = [] ->
          search_element re query s = (Ok [], s)
          /\ main_loop re w (query :: rest) s
             = (find_text re w query ;;; main_loop re w rest) s))
  /\ (forall beyond query,
        is_exit query = true -> Re.engine_with beyond query <> None).
Proof.
  split; [|exact exit_compiles].
  intros re w query rest s E X. split.
  - intros Hd.
    assert (S1 : search_element re query s = (Raise ReError, s)).
    { unfold search_element, bind, get_data, lift.
      now rewrite (select_malformed re query (data s) E Hd). }
    assert (S2 : find_text re w query s = (Raise ReError, s)).
    { unfold find_text. unfold bind at 1. now rewrite S1. }
    repeat split; auto.
    cbn [main_loop]. rewrite X. unfold bind at 1. now rewrite S2.
  - intros Hd. split.
    + unfold search_element, bind, get_data, lift, ret. now rewrite Hd.
    + cbn [main_loop]. now rewrite X.
Qed.

Lemma malformed_query_propagates_witness :
  (data milk_catalogue <> [] ->
   search_element Re.engine (u "(") milk_catalogue
   = (Raise ReError, milk_catalogue)
   /\ find_text Re.engine milk_world (u "(") milk_catalogue
      = (Raise ReError, milk_catalogue)
   /\ main_loop Re.engine milk_world [u "("; u "exit"] milk_catalogue
      = (Raise ReError, milk_catalogue))
  /\ (data milk_catalogue = [] ->
      search_element Re.engine (u "(") milk_catalogue = (Ok [], milk_catalogue)
      /\ main_loop Re.engine milk_world [u "("; u "exit"] milk_catalogue
         = (find_text Re.engine milk_world (u "(") ;;;
            main_loop Re.engine milk_world [u "exit"]) milk_catalogue).
Proof.
  apply (proj1 malformed_query_propagates Re.engine milk_world (u "(")
               [u "exit"] milk_catalogue).
  - vm_compute; reflexivity.
  - vm_compute; reflexivity.
Defined.

(** ** The weights and prices of the catalogue *)

(** C2, as stated, fails: the row [Гиря; 100; -1] is accepted with
    the weight -1.0. *)
Lemma negative_weight_is_accepted :
  exists e,
    data (snd (load_prices Re.engine (one_file (u "price_1.csv") [minus_row])
                           (u ".") s0))
    = [e]
    /\ weight e = Float.of_decimal true 1 0
    /\ Float.ltb Float.zero (weight e) = false
    /\ ~ positive_entry e.
Proof.
  eexists. split; [vm_compute; reflexivity|].
  split; [vm_compute; reflexivity|].
  split; [vm_compute; reflexivity|].
  intros [H _]. vm_compute in H. discriminate H.
Qed.

Lemma keeps_export_to_html_all (P : entry -> Prop) (w : world) (fname : str) :
  keeps (Forall P) (export_to_html_all w fname).
Proof.
  intros s H. rewrite export_to_html_all_data.
  now apply (Permutation_Forall (sort_by_ratio_perm (data s))).
Qed.

Lemma keeps_search_element (re : regex_engine) (Q : list entry -> Prop)
    (query : str) :
  keeps Q (search_element re query).
Proof.
  unfold search_element.
  apply keeps_bind; [apply keeps_get_data | intros d].
  apply keeps_bind; [apply keeps_lift | intros found].
  apply keeps_ret.
Qed.

Lemma keeps_find_text (re : regex_engine) (P : entry -> Prop) (w : world)
    (query : str) :
  keeps (Forall P) (find_text re w query).
Proof.
  unfold find_text, show_result, export_to_html.
  apply keeps_bind; [apply keeps_search_element | intros found].
  apply keeps_bind; [apply keeps_emit | intros _].
  apply keeps_bind; [apply keeps_write_file | intros _].
  apply keeps_bind; [apply keeps_emit | intros _].
  apply keeps_export_to_html_all.
Qed.

Lemma keeps_main_loop (re : regex_engine) (P : entry -> Prop) (w : world)
    (inputs : list str) :
  keeps (Forall P) (main_loop re w inputs).
Proof.
  induction inputs as [|query rest IH]; cbn [main_loop].
  - apply keeps_raise.
  - destruct (is_exit query); [apply keeps_emit|].
    apply keeps_bind; [apply keeps_find_text | intros _; exact IH].
Qed.

(** C2, amended.  After [load_prices], and at the end of any run of
    [main], every entry of the catalogue has a weight that is not
    zero.  (Sign and finiteness of weight and price are not checked.) *)
Theorem catalogue_weights_not_zero (re : regex_engine) (w : world)
    (directory : str) (inputs : list str) (s : state) :
  Forall (fun e => Float.is_zero (weight e) = false)
         (data (snd (load_prices re w directory s)))
  /\ Forall (fun e => Float.is_zero (weight e) = false)
            (data (snd (main re w directory inputs s))).
Proof.
  assert (L : forall s1,
             Forall (fun e => Float.is_zero (weight e) = false)
                    (data (snd (load_prices re w directory s1)))).
  { intros s1. apply (Forall_impl _ (of_pass_weight re w directory)).
    apply load_prices_of_pass. }
  split; [apply L|].
  unfold main, bind. specialize (L s).
  destruct (load_prices re w directory s) as [[[]|e] s1]; cbn in *; auto.
  now apply keeps_main_loop.
Qed.

(** * Further properties *)

(** ** The load of a file *)

Lemma row_handle_total (re : regex_engine) (file_name : str)
    (row : RawRecord) (s : state) :
  row_handle re file_name row s =
  match verdict_of re file_name row with
  | Aborts x => (Raise x, s)
  | _ => (Ok tt, State (data s ++ entries_of re file_name row)
                       (log s ++ reports_of re file_name row))
  end.
Proof.
  rewrite row_handle_verdict. unfold entries_of, reports_of.
  destruct (verdict_of re file_name row); now rewrite ?app_nil_r.
Qed.

Lemma rows_total (re : regex_engine) (file_name : str)
    (rows : list RawRecord) :
  forall s,
    for_each rows (row_handle re file_name) s =
    (match first_abort re file_name rows with
     | Some x => Raise x
     | None => Ok tt
     end,
     State (data s
            ++ flat_map (entries_of re file_name)
                        (until_abort re file_name rows))
           (log s
            ++ flat_map (reports_of re file_name)
                        (until_abort re file_name rows))).
Proof.
  induction rows as [|row rows IH]; intros s.
  - destruct s as [d lg]. cbn. now rewrite !app_nil_r.
  - cbn [for_each first_abort until_abort]. unfold bind.
    rewrite row_handle_total.
    destruct (verdict_of re file_name row) eqn:V.
    + rewrite IH. cbn [data log flat_map]. now rewrite !app_assoc.
    + rewrite IH. cbn [data log flat_map]. now rewrite !app_assoc.
    + destruct s as [d lg]. cbn. now rewrite !app_nil_r.
Qed.

(** The exception that ends the rows of a file is none of those that
    [load_data] catches. *)
Lemma first_abort_kind (re : regex_engine) (file_name : str)
    (rows : list RawRecord) (x : exn) :
  first_abort re file_name rows = Some x ->
  x = ZeroDivisionError \/ x = AttributeError \/ x = ReError.
Proof.
  induction rows as [|row rows IH]; cbn [first_abort]; [discriminate|].
  destruct (verdict_of re file_name row) eqn:V; auto.
  intros H. inversion H; subst. now apply (verdict_aborts re file_name row).
Qed.

Lemma first_abort_uncaught (re : regex_engine) (file_name : str)
    (rows : list RawRecord) (x : exn) :
  first_abort re file_name rows = Some x -> catches_io_or_csv x = false.
Proof.
  intros H.
  destruct (first_abort_kind re file_name rows x H) as [-> | [-> | ->]];
    reflexivity.
Qed.

Lemma load_data_effect (re : regex_engine) (w : world) (file_path : str)
    (s : state) :
  load_data re w file_path s =
  (file_outcome re w file_path,
   State (data s ++ file_entries re w file_path)
         (log s ++ file_reports re w file_path)).
Proof.
  unfold load_data, try_except, bind, file_outcome, file_entries, file_reports.
  rewrite rows_total.
  destruct (first_abort re file_path (fst (read_csv w file_path)))
    as [x|] eqn:F.
  - rewrite (first_abort_uncaught re file_path _ x F).
    cbn. now rewrite app_nil_r.
  - destruct (snd (read_csv w file_path)) as [e|]; cbn.
    + destruct (catches_io_or_csv e); cbn.
      * now rewrite app_assoc.
      * now rewrite app_nil_r.
    + now rewrite app_nil_r.
Qed.

(** X1. The whole effect of [load_data].  Each row comes to an entry,
    to a report or to an exception that leaves [row_handle]: it comes
    to an entry when name, price and weight are there and the weight
    is not zero; to a report when a [ValueError] or a [TypeError] is
    raised first; to an exception when the weight is zero
    ([ZeroDivisionError]) or a field is looked up in a cell that the
    row is too short to fill ([AttributeError]).  [load_data] appends
    the entries and prints the reports in row order up to the first
    row that comes to an exception, where it raises it; an [OSError]
    or [csv.Error] that ends the reading is reported and swallowed,
    any other exception is raised; the entries already there are
    kept. *)
Theorem load_data_total (re : regex_engine) (w : world) (file_path : str)
    (s : state) :
  load_data re w file_path s
  = (file_outcome re w file_path,
     State (data s ++ file_entries re w file_path)
           (log s ++ file_reports re w file_path))
  /\ (forall row,
        verdict_of re file_path row
        = match extract_value re row NAME_PATTERN,
                number_of re PRICE row, number_of re WEIGHT row with
          | Raise x, _, _ | Ok _, Raise x, _ | Ok _, Ok _, Raise x =>
            match x with
            | TypeError | ValueError => Skips x
            | _ => Aborts x
            end
          | Ok name, Ok p, Ok w =>
            if Float.is_zero w then Aborts ZeroDivisionError
            else Accepts (Entry file_path name p w
                                (Float.round2 (Float.div p w)))
          end)
  /\ load_data Re.engine
       (one_file (u "price_1.csv")
                 [milk_row; long_nameless_row; priceless_row; cheese_row;
                  short_row; salt_row]) (u "price_1.csv") s0
     = (Raise AttributeError,
        State [Entry (u "price_1.csv") (u "Молоко")
                     (S754_finite false 5664683906301952 (-46))
                     (S754_finite false 4503599627370496 (-52))
                     (S754_finite false 5664683906301952 (-46));
               Entry (u "price_1.csv") (u "Сыр")
                     (S754_finite false 7036874417766400 (-46))
                     (S754_finite false 6755399441055744 (-51))
                     (S754_finite false 4690780486883082 (-47))]
              [RowError long_nameless_row TypeError;
               RowError priceless_row ValueError]).
Proof.
  split; [|split].
  - unfold load_data, try_except, bind, file_outcome, file_entries,
      file_reports.
    rewrite rows_total.
    destruct (first_abort re file_path (fst (read_csv w file_path)))
      as [x|] eqn:F.
    + rewrite (first_abort_uncaught re file_path _ x F).
      cbn. now rewrite app_nil_r.
    + destruct (snd (read_csv w file_path)) as [e|]; cbn.
      * destruct (catches_io_or_csv e); cbn.
        -- now rewrite app_assoc.
        -- now rewrite app_nil_r.
      * now rewrite app_nil_r.
  - intros row. unfold verdict_of.
    destruct (extract_value re row NAME_PATTERN) as [name|x];
      [|destruct x; reflexivity].
    destruct (number_of re PRICE row) as [p|x]; [|destruct x; reflexivity].
    destruct (number_of re WEIGHT row) as [x|x]; [|destruct x; reflexivity].
    reflexivity.
  - vm_compute; reflexivity.
Qed.

Lemma file_entries_length (re : regex_engine) (w : world) (file_path : str) :
  (List.length (file_entries re w file_path)
   <= List.length (fst (read_csv w file_path)))%nat.
Proof.
  unfold file_entries.
  induction (fst (read_csv w file_path)) as [|row rows IH]; [cbn; lia|].
  cbn [until_abort].
  destruct (verdict_of re file_path row) eqn:V;
    cbn [flat_map List.length]; rewrite ?length_app;
    try (unfold entries_of at 1); rewrite ?V; cbn [List.length]; lia.
Qed.

(** X2. [load_data] never takes an entry out of the catalogue nor
    changes one, adds at most one entry for each row of the file, only
    adds to the output, and never raises [OSError] or [csv.Error]. *)
Theorem load_data_only_appends (re : regex_engine) (w : world)
    (file_path : str) (s : state) :
  (exists added,
      data (snd (load_data re w file_path s)) = data s ++ added
      /\ (List.length added <= List.length (fst (read_csv w file_path)))%nat)
  /\ (exists printed,
        log (snd (load_data re w file_path s)) = log s ++ printed)
  /\ fst (load_data re w file_path s) <> Raise OSError
  /\ fst (load_data re w file_path s) <> Raise CsvError.
Proof.
  rewrite load_data_effect. cbn [fst snd data log].
  split; [|split].
  - exists (file_entries re w file_path). split; auto.
    apply file_entries_length.
  - eexists. reflexivity.
  - unfold file_outcome.
    destruct (first_abort re file_path (fst (read_csv w file_path)))
      as [x|] eqn:F.
    + destruct (first_abort_kind re file_path _ x F) as [-> | [-> | ->]];
        split; discriminate.
    + destruct (snd (read_csv w file_path)) as [e|]; [|split; discriminate].
      destruct e; cbn; split; discriminate.
Qed.

Lemma files_total (re : regex_engine) (w : world) (names : list str) :
  (forall f, In f names -> is_price_list f = true ->
             file_outcome re w f = Ok tt) ->
  forall s,
    for_each names
      (fun filename =>
         if is_price_list filename then load_data re w filename else ret tt) s
    = (Ok tt,
       State (data s
              ++ flat_map (file_entries re w) (filter is_price_list names))
             (log s
              ++ flat_map (file_reports re w) (filter is_price_list names))).
Proof.
  induction names as [|f names IH]; intros Hok s.
  - destruct s as [d lg]. cbn. now rewrite !app_nil_r.
  - cbn [for_each filter]. unfold bind.
    assert (Hrest : forall g, In g names -> is_price_list g = true ->
                              file_outcome re w g = Ok tt)
      by (intros g Hg; apply Hok; now right).
    destruct (is_price_list f) eqn:Ef.
    + rewrite load_data_effect, (Hok f (or_introl eq_refl) Ef).
      rewrite (IH Hrest). cbn [data log flat_map]. now rewrite !app_assoc.
    + cbn [ret]. now rewrite (IH Hrest).
Qed.

Lemma until_abort_all (re : regex_engine) (file_name : str)
    (rows : list RawRecord) :
  first_abort re file_name rows = None -> until_abort re file_name rows = rows.
Proof.
  induction rows as [|row rows IH]; cbn [first_abort until_abort]; auto.
  destruct (verdict_of re file_name row); intros H;
    [now rewrite IH | now rewrite IH | discriminate].
Qed.

Lemma file_outcome_rows (re : regex_engine) (w : world) (file_path : str) :
  file_outcome re w file_path = Ok tt ->
  first_abort re file_path (fst (read_csv w file_path)) = None.
Proof.
  unfold file_outcome.
  destruct (first_abort re file_path (fst (read_csv w file_path)));
    [discriminate|reflexivity].
Qed.

(** X3. When the directory can be listed and no price list of it
    ends with an exception (no row of zero weight, no field looked up
    in a cell that the row is too short to fill, no reading error but
    [OSError] and [csv.Error]), [load_prices] returns and leaves as
    the catalogue the entries that the rows come to, every row read:
    file by file in the order of the listing, row by row in the order
    of the file; the output gains the reports of the skipped rows and
    of the unreadable files, in the same order. *)
Theorem load_prices_total (re : regex_engine) (w : world) (directory : str)
    (names : list str) (s : state) :
  listdir w directory = Ok names ->
  (forall f, In f names -> is_price_list f = true ->
             file_outcome re w f = Ok tt) ->
  load_prices re w directory s
  = (Ok tt,
     State (flat_map (file_entries re w) (filter is_price_list names))
           (log s ++ flat_map (file_reports re w) (filter is_price_list names)))
  /\ forall f,
       In f names -> is_price_list f = true ->
       file_entries re w f = flat_map (entries_of re f) (fst (read_csv w f))
       /\ file_reports re w f
          = flat_map (reports_of re f) (fst (read_csv w f))
            ++ match snd (read_csv w f) with
               | Some e => [FileError f e]
               | None => []
               end.
Proof.
  intros El Hok. split.
  - unfold load_prices. unfold bind at 1. cbn [set_data].
    unfold bind, lift. rewrite El. now rewrite (files_total re w names Hok).
  - intros f Hin Hp. pose proof (Hok f Hin Hp) as Ho.
    pose proof (file_outcome_rows re w f Ho) as Hf.
    unfold file_entries, file_reports.
    rewrite (until_abort_all re f _ Hf), Hf. split; [reflexivity|].
    f_equal. unfold file_outcome in Ho. rewrite Hf in Ho.
    destruct (snd (read_csv w f)) as [e|]; [|reflexivity].
    destruct (catches_io_or_csv e); [reflexivity|discriminate].
Qed.

Lemma load_prices_total_witness :
  load_prices Re.engine (two_files report_rows) (u ".") s0
  = (Ok tt,
     State (flat_map (file_entries Re.engine (two_files report_rows))
                     (filter is_price_list [u "price_list.csv"; u "report.csv"]))
           (log s0 ++ flat_map (file_reports Re.engine (two_files report_rows))
                      (filter is_price_list
                              [u "price_list.csv"; u "report.csv"])))
  /\ forall f,
       In f [u "price_list.csv"; u "report.csv"] -> is_price_list f = true ->
       file_entries Re.engine (two_files report_rows) f
       = flat_map (entries_of Re.engine f)
                  (fst (read_csv (two_files report_rows) f))
       /\ file_reports Re.engine (two_files report_rows) f
          = flat_map (reports_of Re.engine f)
                     (fst (read_csv (two_files report_rows) f))
            ++ match snd (read_csv (two_files report_rows) f) with
               | Some e => [FileError f e]
               | None => []
               end.
Proof.
  apply (load_prices_total Re.engine (two_files report_rows) (u ".")
           [u "price_list.csv"; u "report.csv"] s0).
  - reflexivity.
  - intros f [<-|[<-|[]]] _; vm_compute; reflexivity.
Defined.

Lemma files_agree (re : regex_engine) (w1 w2 : world) (names : list str) :
  (forall f, is_price_list f = true -> read_csv w1 f = read_csv w2 f) ->
  forall t,
    for_each names
      (fun filename =>
         if is_price_list filename then load_data re w1 filename else ret tt) t
    = for_each names
        (fun filename =>
           if is_price_list filename then load_data re w2 filename
           else ret tt) t.
Proof.
  intros Hr. induction names as [|f names IH]; intros t; [reflexivity|].
  cbn [for_each]. unfold bind.
  assert (E : (if is_price_list f then load_data re w1 f else ret tt) t
              = (if is_price_list f then load_data re w2 f else ret tt) t).
  { destruct (is_price_list f) eqn:Ef; [|reflexivity].
    unfold load_data. now rewrite (Hr f Ef). }
  rewrite E.
  destruct ((if is_price_list f then load_data re w2 f else ret tt) t)
    as [[[]|e] t']; [apply IH|reflexivity].
Qed.

(** X4. [load_prices] opens only the files whose name ends in [.csv]
    and has [price] in it, letter case ignored: two worlds with the
    same listing and the same content of those files give the same
    result, whatever the other files hold. *)
Theorem load_prices_reads_price_lists_only (re : regex_engine)
    (w1 w2 : world) (directory : str) (s : state) :
  listdir w1 directory = listdir w2 directory ->
  (forall f, is_price_list f = true -> read_csv w1 f = read_csv w2 f) ->
  load_prices re w1 directory s = load_prices re w2 directory s.
Proof.
  intros El Hr. unfold load_prices, bind, set_data, lift. cbn beta iota.
  rewrite <- El.
  destruct (listdir w1 directory) as [names|e]; [|reflexivity].
  apply (files_agree re w1 w2 names Hr).
Qed.

Lemma load_prices_reads_price_lists_only_witness :
  load_prices Re.engine (two_files report_rows) (u ".") s0
  = load_prices Re.engine (two_files [zero_row]) (u ".") s0.
Proof.
  apply (load_prices_reads_price_lists_only Re.engine (two_files report_rows)
           (two_files [zero_row]) (u ".") s0).
  - reflexivity.
  - intros f Hf. cbn [two_files read_csv].
    destruct (Str.eqb f (u "report.csv")) eqn:E; [|reflexivity].
    unfold Str.eqb in E.
    destruct (list_eq_dec N.eq_dec f (u "report.csv")) as [->|]; [|discriminate].
    vm_compute in Hf. discriminate Hf.
Defined.

(** ** The session after the load *)

Section UpToOrder.

Variable re : regex_engine.
Variable Q : list entry -> Prop.
Hypothesis Q_perm : forall a b, Permutation a b -> Q a -> Q b.

Lemma keeps_export_up_to_order (w : world) (fname : str) :
  keeps Q (export_to_html_all w fname).
Proof.
  intros s H. rewrite export_to_html_all_data.
  apply (Q_perm (data s)); auto. apply sort_by_ratio_perm.
Qed.

Lemma keeps_find_text_up_to_order (w : world) (query : str) :
  keeps Q (find_text re w query).
Proof.
  unfold find_text, show_result, export_to_html.
  apply keeps_bind; [apply keeps_search_element | intros found].
  apply keeps_bind; [apply keeps_emit | intros _].
  apply keeps_bind; [apply keeps_write_file | intros _].
  apply keeps_bind; [apply keeps_emit | intros _].
  apply keeps_export_up_to_order.
Qed.

Lemma keeps_main_loop_up_to_order (w : world) (inputs : list str) :
  keeps Q (main_loop re w inputs).
Proof.
  induction inputs as [|query rest IH]; cbn [main_loop].
  - apply keeps_raise.
  - destruct (is_exit query); [apply keeps_emit|].
    apply keeps_bind; [apply keeps_find_text_up_to_order | intros _; exact IH].
Qed.

End UpToOrder.

(** X5. The queries of a session never add, drop or alter an entry:
    however [main] ends, the catalogue it leaves is a permutation of
    the one [load_prices] left, and every entry of it still comes from
    a row of a price list of this pass, its ratio being
    [round(price / weight, 2)]. *)
Theorem session_keeps_the_entries (re : regex_engine) (w : world)
    (directory : str) (inputs : list str) (s : state) :
  Permutation (data (snd (load_prices re w directory s)))
              (data (snd (main re w directory inputs s)))
  /\ Forall (of_pass re w directory)
            (data (snd (main re w directory inputs s)))
  /\ Forall (fun e => ratio e = Float.round2 (Float.div (price e) (weight e)))
            (data (snd (main re w directory inputs s))).
Proof.
  assert (P : Permutation (data (snd (load_prices re w directory s)))
                          (data (snd (main re w directory inputs s)))).
  { unfold main, bind.
    destruct (load_prices re w directory s) as [[[]|e] s1]; cbn [snd]; auto.
    apply (keeps_main_loop_up_to_order re (Permutation (data s1))).
    - intros a b Hab Ha. now apply (perm_trans Ha).
    - apply Permutation_refl. }
  assert (F : Forall (of_pass re w directory)
                     (data (snd (main re w directory inputs s)))).
  { apply (Permutation_Forall P). apply load_prices_of_pass. }
  split; [exact P|]. split; [exact F|].
  apply (Forall_impl _ (P := of_pass re w directory)); auto.
  intros e (names & row & _ & _ & _ & _ & name & p & x & _ & _ & _ & _ & ->).
  reflexivity.
Qed.

(** ** The words that end the session *)

Lemma contains_exit (p : str) :
  Str.contains (u "exit") p = true <-> In p exit_words.
Proof.
  replace (u "exit") with [101; 120; 105; 116]%N by (vm_compute; reflexivity).
  let v := eval vm_compute in exit_words in change exit_words with v.
  split.
  - intros H.
    destruct p as [|a [|b [|c [|d [|e p]]]]]; cbn in H;
      repeat match type of H with
             | context [N.eqb ?x ?y] =>
               destruct (N.eqb_spec x y); subst; cbn in H
             end;
      try discriminate H; cbn; tauto.
  - cbn [In]. intros H.
    repeat (destruct H as [<-|H]; [vm_compute; reflexivity|]).
    destruct H.
Qed.

(** X6. An input ends the session exactly when its lower case is a
    contiguous part of [exit]: the empty line and [e], [x], [i], [t],
    [ex], [xi], [it], [exi], [xit], [exit] in any letter case.  On
    such an input the loop prints its last line and stops: no search
    is made, the catalogue stays and the lines after it are not
    read. *)
Theorem exit_inputs (query : str) :
  (is_exit query = true <-> In (Str.lower query) exit_words)
  /\ (is_exit query = true ->
      (List.length query <= 4)%nat
      /\ forall re w rest s,
           main_loop re w (query :: rest) s
           = (Ok tt, State (data s) (log s ++ [Finished]))).
Proof.
  split; [apply contains_exit|].
  intros H. split.
  - apply contains_exit in H.
    assert (L : (List.length (Str.lower query) <= 4)%nat).
    { revert H. generalize (Str.lower query). intros p.
      let v := eval vm_compute in exit_words in change exit_words with v.
      cbn [In]. intros H.
      repeat (destruct H as [<-|H]; [cbn; lia|]). destruct H. }
    unfold Str.lower in L. now rewrite length_map in L.
  - intros re w rest s. cbn [main_loop]. now rewrite H.
Qed.

Lemma exit_inputs_witness :
  (List.length (u "XiT") <= 4)%nat
  /\ forall re w rest s,
       main_loop re w (u "XiT" :: rest) s
       = (Ok tt, State (data s) (log s ++ [Finished])).
Proof.
  apply (proj2 (exit_inputs (u "XiT"))). vm_compute; reflexivity.
Defined.

(** ** Searching with a plain text *)

Lemma parse_plain (q : str) :
  forallb plain q = true ->
  forall cur stack,
    Re.parse q cur stack
    = Re.parse [] (Re.Frame (Re.alts cur)
                            (rev (map (fun c => (Re.Chr c, false)) q)
                             ++ Re.items cur)) stack.
Proof.
  induction q as [|c q IH]; intros H cur stack.
  - destruct cur. reflexivity.
  - cbn [forallb] in H. apply andb_prop in H. destruct H as [Hc Hq].
    cbn [Re.parse]. unfold plain in Hc. unfold Re.is_quantifier.
    destruct (c =? 40); [discriminate|]. destruct (c =? 41); [discriminate|].
    destruct (c =? 124); [discriminate|]. destruct (c =? 42); [discriminate|].
    destruct (c =? 43); [discriminate|]. destruct (c =? 63); [discriminate|].
    destruct (c =? 92); [discriminate|]. destruct (c =? 46); [discriminate|].
    destruct (c =? 91); [discriminate|]. destruct (c =? 123); [discriminate|].
    destruct (c =? 94); [discriminate|]. destruct (c =? 36); [discriminate|].
    cbn [orb]. rewrite (IH Hq). unfold Re.push. cbn [Re.alts Re.items map rev].
    now rewrite <- app_assoc.
Qed.

Lemma seq_of_letters (q : str) :
  Re.seq_of (rev (map (fun c => (Re.Chr c, false)) q)) = Re.lit q.
Proof.
  unfold Re.seq_of, Re.lit.
  rewrite <- (fold_left_rev_right
                (fun (it : Re.regex * bool) (acc : Re.regex) =>
                   Re.Cat (fst it) acc)).
  rewrite rev_involutive.
  induction q as [|c q IH]; cbn; [reflexivity|now rewrite IH].
Qed.

Lemma compile_plain (q : str) :
  forallb plain q = true -> Re.compile q = Re.Compiled (Re.lit q).
Proof.
  intros H. unfold Re.compile. rewrite (parse_plain q H).
  cbn [Re.parse Re.alts Re.items]. rewrite app_nil_r.
  unfold Re.close. cbn [Re.alts Re.items fold_left].
  now rewrite seq_of_letters.
Qed.

Lemma found_lit (q s : str) : Re.found (Re.lit q) s = ci_contains s q.
Proof.
  induction s as [|x s IH]; cbn [Re.found ci_contains];
    rewrite ReFacts.match_here_lit; [reflexivity|now rewrite IH].
Qed.

Lemma engine_plain (beyond : regex_engine) (q : str) :
  forallb plain q = true ->
  Re.engine_with beyond q = Some (Re.found (Re.lit q)).
Proof. intros H. unfold Re.engine_with. now rewrite (compile_plain q H). Qed.

(** X7. With an engine of the module [Re], a query without pattern
    characters is a search for the text itself, letter case ignored
    as [re.IGNORECASE] does: [search_element] returns, each as often
    as the catalogue has it, the entries whose name contains the
    query, and leaves the state as it is.  The empty query names every
    entry. *)
Theorem plain_query_is_substring_search (beyond : regex_engine)
    (query : str) (s : state) :
  forallb plain query = true ->
  exists found,
    search_element (Re.engine_with beyond) query s = (Ok found, s)
    /\ Permutation
         (filter (fun e => ci_contains (product_name e) query) (data s)) found
    /\ (forall e, In e found
                  <-> In e (data s)
                      /\ ci_contains (product_name e) query = true)
    /\ (query = [] -> Permutation (data s) found).
Proof.
  intros H. pose proof (engine_plain beyond query H) as E.
  exists (sort_by_ratio
            (filter (fun e => ci_contains (product_name e) query) (data s))).
  split; [|split; [|split]].
  - unfold search_element, bind, get_data, lift, ret.
    rewrite (select_compiled (Re.engine_with beyond) query _ (data s) E).
    f_equal. f_equal. f_equal. apply filter_ext. intros e. apply found_lit.
  - apply sort_by_ratio_perm.
  - intros e.
    rewrite <- (filter_In (fun e => ci_contains (product_name e) query)).
    split; intros Hin.
    + apply (Permutation_in e (Permutation_sym (sort_by_ratio_perm _)) Hin).
    + apply (Permutation_in e (sort_by_ratio_perm _) Hin).
  - intros ->.
    rewrite (filter_ext (fun e => ci_contains (product_name e) [])
                        (fun _ => true)).
    + assert (F : forall l : list entry, filter (fun _ => true) l = l)
        by (induction l as [|x l IHl]; cbn; [|rewrite IHl]; reflexivity).
      rewrite F. apply sort_by_ratio_perm.
    + intros e. now destruct (product_name e).
Qed.

Lemma plain_query_is_substring_search_witness :
  exists found,
    search_element Re.engine (u "МОЛ") milk_catalogue
    = (Ok found, milk_catalogue)
    /\ Permutation
         (filter (fun e => ci_contains (product_name e) (u "МОЛ"))
                 (data milk_catalogue)) found
    /\ (forall e, In e found
                  <-> In e (data milk_catalogue)
                      /\ ci_contains (product_name e) (u "МОЛ") = true)
    /\ (u "МОЛ" = [] -> Permutation (data milk_catalogue) found).
Proof.
  apply (plain_query_is_substring_search (fun _ => None) (u "МОЛ")
           milk_catalogue).
  vm_compute; reflexivity.
Defined.

Lemma select_filter (re : regex_engine) (query : str)
    (rows kept : list entry) :
  select re query rows = Ok kept ->
  kept = filter (fun e => match re_search re query (Some (product_name e)) with
                          | Ok b => b
                          | Raise _ => false
                          end) rows.
Proof.
  revert kept. induction rows as [|row rows IH]; intros kept H.
  - cbn in H. now inversion H.
  - cbn [select filter] in *.
    destruct (re_search re query (Some (product_name row))) as [b|];
      [|discriminate].
    destruct (select re query rows) as [k|]; [|discriminate].
    inversion H; subst. now rewrite (IH k eq_refl).
Qed.

(** X8. [search_element] never changes the state, whatever the query
    is and whether it returns or raises; what it returns are entries
    of the catalogue, no more of them than the catalogue has; on the
    empty catalogue it returns no entry for any query, a malformed
    one included. *)
Theorem search_element_reads_only (re : regex_engine) (query : str)
    (s : state) :
  snd (search_element re query s) = s
  /\ (forall found,
        fst (search_element re query s) = Ok found ->
        incl found (data s)
        /\ (List.length found <= List.length (data s))%nat)
  /\ (data s = [] -> search_element re query s = (Ok [], s)).
Proof.
  unfold search_element, bind, get_data, lift, ret.
  split; [|split].
  - destruct (select re query (data s)); reflexivity.
  - intros found H.
    destruct (select re query (data s)) as [kept|] eqn:E; [|discriminate].
    cbn in H. inversion H; subst. apply select_filter in E. subst kept.
    split.
    + intros e He.
      apply (Permutation_in e (Permutation_sym (sort_by_ratio_perm _))) in He.
      apply filter_In in He. tauto.
    + rewrite <- (Permutation_length (sort_by_ratio_perm _)).
      apply filter_length_le.
  - intros ->. reflexivity.
Qed.

(** ** Searching a sorted catalogue *)

Section SortAndFilter.

Context {A K : Type}.
Variable key : A -> K.
Variable lt : K -> K -> bool.
Variable good : K -> Prop.
Hypothesis le_trans :
  forall a b c, good a -> good b -> good c ->
    lt b a = false -> lt c b = false -> lt c a = false.
Variable keep : A -> bool.

Lemma insert_first (x : A) (l : list A) :
  Forall (in_order key lt x) l -> insert key lt x l = x :: l.
Proof.
  intros H. destruct l as [|y l]; [reflexivity|].
  cbn [insert]. apply Forall_inv in H. unfold in_order in H. now rewrite H.
Qed.

Lemma filter_insert (x : A) (l : list A) :
  good (key x) -> Forall (fun y => good (key y)) l ->
  StronglySorted (in_order key lt) l ->
  filter keep (insert key lt x l)
  = if keep x then insert key lt x (filter keep l) else filter keep l.
Proof.
  intros Gx Gl Hs. induction Hs as [|y l Hs IH Hy]; cbn [insert filter].
  - destruct (keep x); reflexivity.
  - inversion Gl as [|? ? Gy Gl']; subst.
    destruct (lt (key y) (key x)) eqn:E.
    + cbn [filter]. rewrite (IH Gl').
      destruct (keep y), (keep x); cbn [insert]; rewrite ?E; reflexivity.
    + cbn [filter]. destruct (keep x); [|reflexivity].
      symmetry. apply insert_first.
      assert (F : Forall (in_order key lt x) (y :: l)).
      { constructor; [exact E|].
        rewrite Forall_forall in *. intros z Hz. unfold in_order.
        apply (le_trans (key x) (key y) (key z));
          [exact Gx | exact Gy | now apply Gl' | exact E | now apply Hy]. }
      rewrite Forall_forall in *. intros z Hz.
      apply F. change (In z (filter keep (y :: l))) in Hz.
      apply filter_In in Hz. tauto.
Qed.

Hypothesis lt_asym :
  forall a b, good a -> good b -> lt a b = true -> lt b a = false.

Lemma sort_by_filter (l : list A) :
  Forall (fun y => good (key y)) l ->
  sort_by key lt (filter keep l) = filter keep (sort_by key lt l).
Proof.
  induction 1 as [|x l Gx Gl IH]; [reflexivity|].
  rewrite sort_by_cons, filter_insert; auto.
  - cbn [filter]. destruct (keep x); [|exact IH].
    now rewrite sort_by_cons, IH.
  - now apply (sort_by_good key lt good).
  - now apply (sort_by_sorted key lt good).
Qed.

End SortAndFilter.

Lemma sort_by_ratio_filter (keep : entry -> bool) (l : list entry) :
  no_nan l ->
  sort_by_ratio (filter keep l) = filter keep (sort_by_ratio l).
Proof.
  intros H.
  apply (sort_by_filter ratio Float.ltb (fun k => Float.is_nan k = false));
    auto.
  - apply FloatOrder.ltb_false_trans.
  - intros a b _ _. apply FloatOrder.ltb_asym.
Qed.

(** X9. What a successful [find_text] does, for a query that is a
    well-formed pattern, [found] telling the texts in which
    [re.search] finds it, and a catalogue without NaN ratio, both
    files being writable: the catalogue is left sorted by ratio and
    written whole to [output_all.html]; the table printed and
    [output_find.html] hold the rows of that export in whose name the
    pattern is found, in the order they have there; the messages come
    in the order table, search file, its notice, full file, its
    notice. *)
Theorem find_text_shows_part_of_export (re : regex_engine) (w : world)
    (query : str) (found : str -> bool) (s : state) :
  re query = Some found ->
  no_nan (data s) ->
  writable w find_file = true ->
  writable w all_file = true ->
  let sorted := sort_by_ratio (data s) in
  let hits := filter (fun e => found (product_name e)) sorted in
  find_text re w query s
  = (Ok tt,
     State sorted
           (log s ++ [Table hits; HtmlFile find_file hits; SavedFind find_file;
                      HtmlFile all_file sorted; SavedAll all_file])).
Proof.
  intros E Hn Wf Wa sorted hits.
  unfold find_text, search_element, show_result, export_to_html,
    export_to_html_all, write_file, bind, get_data, set_data, lift, ret, emit.
  rewrite (select_compiled re query found (data s) E).
  change (u "output_find.html") with find_file.
  change (u "output_all.html") with all_file.
  rewrite (sort_by_ratio_filter _ (data s) Hn). fold sorted. fold hits.
  rewrite Wf. cbn [data log]. rewrite Wa. cbn [data log].
  now rewrite <- !app_assoc.
Qed.

Lemma find_text_shows_part_of_export_witness :
  let sorted := sort_by_ratio (data milk_catalogue) in
  let hits :=
    filter (fun e => Re.found (Re.lit (u "мол")) (product_name e)) sorted in
  find_text Re.engine milk_world (u "мол") milk_catalogue
  = (Ok tt,
     State sorted
           (log milk_catalogue
            ++ [Table hits; HtmlFile find_file hits; SavedFind find_file;
                HtmlFile all_file sorted; SavedAll all_file])).
Proof.
  apply (find_text_shows_part_of_export Re.engine milk_world (u "мол")
           (Re.found (Re.lit (u "мол"))) milk_catalogue).
  - exact engine_mol.
  - repeat constructor.
  - reflexivity.
  - reflexivity.
Defined.

(** X10. A report that cannot be written ends the session with
    [OSError], which nothing catches.  For a query that is a
    well-formed pattern and a catalogue without NaN ratio: when the
    file is [output_find.html], the table has been printed and the
    catalogue is as it was; when it is [output_all.html], the search
    file and its notice are done and the catalogue is already sorted,
    but no notice of the full export is printed. *)
Theorem find_text_write_failure (re : regex_engine) (w : world)
    (query : str) (found : str -> bool) (rest : list str) (s : state) :
  re query = Some found ->
  is_exit query = false ->
  no_nan (data s) ->
  let hits :=
    sort_by_ratio (filter (fun e => found (product_name e)) (data s)) in
  (writable w find_file = false ->
   find_text re w query s
   = (Raise OSError, State (data s) (log s ++ [Table hits]))
   /\ main_loop re w (query :: rest) s
      = (Raise OSError, State (data s) (log s ++ [Table hits])))
  /\ (writable w find_file = true ->
      writable w all_file = false ->
      find_text re w query s
      = (Raise OSError,
         State (sort_by_ratio (data s))
               (log s ++ [Table hits; HtmlFile find_file hits;
                          SavedFind find_file]))
      /\ main_loop re w (query :: rest) s
         = (Raise OSError,
            State (sort_by_ratio (data s))
                  (log s ++ [Table hits; HtmlFile find_file hits;
                             SavedFind find_file]))).
Proof.
  intros E X Hn hits.
  assert (L : forall out, find_text re w query s = (Raise OSError, out) ->
                          main_loop re w (query :: rest) s
                          = (Raise OSError, out)).
  { intros out H. cbn [main_loop]. rewrite X. unfold bind at 1. now rewrite H. }
  split.
  - intros Wf.
    assert (F : find_text re w query s
                = (Raise OSError, State (data s) (log s ++ [Table hits]))).
    { unfold find_text, search_element, show_result, export_to_html,
        write_file, bind, get_data, lift, ret, emit, raise.
      rewrite (select_compiled re query found (data s) E).
      change (u "output_find.html") with find_file.
      cbn [data log]. now rewrite Wf. }
    split; [exact F | now apply L].
  - intros Wf Wa.
    assert (F : find_text re w query s
                = (Raise OSError,
                   State (sort_by_ratio (data s))
                         (log s ++ [Table hits; HtmlFile find_file hits;
                                    SavedFind find_file]))).
    { unfold find_text, search_element, show_result, export_to_html,
        export_to_html_all, write_file, bind, get_data, set_data, lift, ret,
        emit, raise.
      rewrite (select_compiled re query found (data s) E).
      change (u "output_find.html") with find_file.
      change (u "output_all.html") with all_file.
      cbn [data log]. rewrite Wf. cbn [data log]. rewrite Wa.
      now rewrite <- !app_assoc. }
    split; [exact F | now apply L].
Qed.

Lemma find_text_write_failure_witness :
  let hits :=
    sort_by_ratio
      (filter (fun e => Re.found (Re.lit (u "мол")) (product_name e))
              (data milk_catalogue)) in
  (writable (read_only find_file) find_file = false ->
   find_text Re.engine (read_only find_file) (u "мол") milk_catalogue
   = (Raise OSError,
      State (data milk_catalogue) (log milk_catalogue ++ [Table hits]))
   /\ main_loop Re.engine (read_only find_file) [u "мол"; u "exit"]
                milk_catalogue
      = (Raise OSError,
         State (data milk_catalogue) (log milk_catalogue ++ [Table hits])))
  /\ (writable (read_only find_file) find_file = true ->
      writable (read_only find_file) all_file = false ->
      find_text Re.engine (read_only find_file) (u "мол") milk_catalogue
      = (Raise OSError,
         State (sort_by_ratio (data milk_catalogue))
               (log milk_catalogue
                ++ [Table hits; HtmlFile find_file hits;
                    SavedFind find_file]))
      /\ main_loop Re.engine (read_only find_file) [u "мол"; u "exit"]
                   milk_catalogue
         = (Raise OSError,
            State (sort_by_ratio (data milk_catalogue))
                  (log milk_catalogue
                   ++ [Table hits; HtmlFile find_file hits;
                       SavedFind find_file]))).
Proof.
  apply (find_text_write_failure Re.engine (read_only find_file) (u "мол")
           (Re.found (Re.lit (u "мол"))) [u "exit"] milk_catalogue).
  - exact engine_mol.
  - vm_compute; reflexivity.
  - repeat constructor.
Defined.

(** ** The text of a cell *)

Lemma lstrip_by_head (p : N -> bool) (s : str) (c : N) (t : str) :
  Str.lstrip_by p s = c :: t -> p c = false.
Proof.
  induction s as [|x s IH]; cbn; [discriminate|].
  destruct (p x) eqn:E; [exact IH|]. intros H. inversion H; subst. exact E.
Qed.

Lemma lstrip_by_fixed (p : N -> bool) (s : str) :
  (forall c t, s = c :: t -> p c = false) -> Str.lstrip_by p s = s.
Proof.
  intros H. destruct s as [|x s]; [reflexivity|].
  cbn. now rewrite (H x s eq_refl).
Qed.

Lemma lstrip_by_suffix (p : N -> bool) (s : str) :
  exists pre, s = pre ++ Str.lstrip_by p s.
Proof.
  induction s as [|x s [pre IH]]; [now exists []|].
  cbn. destruct (p x).
  - exists (x :: pre). cbn. now rewrite <- IH.
  - now exists [].
Qed.

Lemma strip_by_twice (p : N -> bool) (s : str) :
  Str.strip_by p (Str.strip_by p s) = Str.strip_by p s.
Proof.
  unfold Str.strip_by.
  set (a := Str.lstrip_by p s). set (b := Str.lstrip_by p (rev a)).
  assert (Hb : Str.lstrip_by p b = b).
  { apply lstrip_by_fixed. intros c t E. now apply (lstrip_by_head p (rev a) c t). }
  assert (Hr : Str.lstrip_by p (rev b) = rev b).
  { apply lstrip_by_fixed. intros c t E.
    destruct (lstrip_by_suffix p (rev a)) as [pre Hpre]. fold b in Hpre.
    assert (Ha : a = rev b ++ rev pre).
    { rewrite <- rev_app_distr, <- Hpre. now rewrite rev_involutive. }
    rewrite E in Ha. cbn in Ha.
    now apply (lstrip_by_head p s c (t ++ rev pre)). }
  now rewrite Hr, rev_involutive, Hb.
Qed.

(** X11. Whatever the pattern, what [extract_value] returns is the
    empty text or the trimmed cell of a column of the row whose name
    the pattern is found in; it never begins or ends with white
    space: trimming it again changes nothing. *)
Theorem extract_value_is_trimmed (re : regex_engine) (row : RawRecord)
    (pattern : str) (text : str) :
  extract_value re row pattern = Ok text ->
  Str.strip text = text
  /\ (text = []
      \/ exists name value,
           In (Some name, Text value) row
           /\ re_search re pattern (Some name) = Ok true
           /\ text = Str.strip value).
Proof.
  intros H. split.
  - destruct (extract_value_origin re row pattern text H)
      as [->|(name & value & _ & _ & ->)]; [reflexivity|].
    apply strip_by_twice.
  - exact (extract_value_origin re row pattern text H).
Qed.

Lemma extract_value_is_trimmed_witness :
  Str.strip (u "80,5") = u "80,5"
  /\ (u "80,5" = []
      \/ exists name value,
           In (Some name, Text value) padded_row
           /\ re_search Re.engine PRICE_PATTERN (Some name) = Ok true
           /\ u "80,5" = Str.strip value).
Proof.
  apply (extract_value_is_trimmed Re.engine padded_row PRICE_PATTERN
           (u "80,5")).
  vm_compute; reflexivity.
Defined.

Lemma lstrip_by_map (p : N -> bool) (h : N -> N) (s : str) :
  (forall c, p (h c) = p c) ->
  Str.lstrip_by p (map h s) = map h (Str.lstrip_by p s).
Proof.
  intros H. induction s as [|x s IH]; [reflexivity|].
  cbn. rewrite H. destruct (p x); [exact IH|reflexivity].
Qed.

Lemma strip_replace (v : str) :
  Str.strip (Str.replace comma point v)
  = Str.replace comma point (Str.strip v).
Proof.
  assert (H : forall c, Str.isspace (if c =? comma then point else c)
                        = Str.isspace c).
  { intros c. destruct (N.eqb_spec c comma) as [->|]; reflexivity. }
  unfold Str.strip, Str.strip_by, Str.replace.
  now rewrite (lstrip_by_map _ _ v H), <- map_rev, (lstrip_by_map _ _ _ H),
    map_rev.
Qed.

Lemma replace_twice (v : str) :
  Str.replace comma point (Str.replace comma point v)
  = Str.replace comma point v.
Proof.
  unfold Str.replace. rewrite map_map. apply map_ext. intros c.
  destruct (N.eqb_spec c comma) as [->|]; [reflexivity|].
  destruct (N.eqb_spec c comma); [contradiction|reflexivity].
Qed.

Lemma extract_value_with_points (re : regex_engine) (row : RawRecord)
    (pattern : str) :
  extract_value re (with_points row) pattern
  = match extract_value re row pattern with
    | Ok text => Ok (Str.replace comma point text)
    | Raise x => Raise x
    end.
Proof.
  unfold with_points.
  induction row as [|[key value] row IH]; [reflexivity|].
  cbn [map extract_value fst snd].
  destruct (re_search re pattern key) as [[|]|]; [|exact IH|reflexivity].
  destruct value; cbn [strip_cell]; [|reflexivity|reflexivity].
  now rewrite strip_replace.
Qed.

Lemma number_of_with_points (re : regex_engine) (f : field)
    (row : RawRecord) :
  number_of re f (with_points row) = number_of re f row.
Proof.
  unfold number_of. rewrite extract_value_with_points.
  destruct (extract_value re row (pattern_of f)); [|reflexivity].
  now rewrite replace_twice.
Qed.

(** X12. A decimal comma and a decimal point are the same to the
    loader: writing every comma of the cells of a row as a point
    changes neither the number the row gives for a field, nor whether
    the row is accepted, skipped or makes [row_handle] raise, nor the
    price, weight and ratio of the entry it adds. *)
Theorem comma_is_point (re : regex_engine) (f : field) (file_name : str)
    (row : RawRecord) :
  number_of re f (with_points row) = number_of re f row
  /\ zero_weight re (with_points row) = zero_weight re row
  /\ map (fun e => (price e, weight e, ratio e))
         (entries_of re file_name (with_points row))
     = map (fun e => (price e, weight e, ratio e))
           (entries_of re file_name row)
  /\ fst (row_handle re file_name (with_points row) s0)
     = fst (row_handle re file_name row s0)
  /\ List.length (reports_of re file_name (with_points row))
     = List.length (reports_of re file_name row).
Proof.
  split; [apply number_of_with_points|].
  split; [unfold zero_weight; now rewrite !number_of_with_points|].
  rewrite !row_handle_verdict.
  unfold entries_of, reports_of, verdict_of.
  rewrite !number_of_with_points.
  change NAME_PATTERN with (pattern_of NAME).
  rewrite extract_value_with_points.
  destruct (extract_value re row (pattern_of NAME)) as [name|x].
  - destruct (number_of re PRICE row) as [p|x];
      [|destruct (catches_type_or_value x); repeat split; reflexivity].
    destruct (number_of re WEIGHT row) as [w|x];
      [|destruct (catches_type_or_value x); repeat split; reflexivity].
    destruct (Float.is_zero w); repeat split; reflexivity.
  - destruct (catches_type_or_value x); repeat split; reflexivity.
Qed.

(** ** The numbers of the rows *)

Lemma enumerate_from_shift {A} (l : list A) :
  forall i,
    map (fun ir => (fst ir + 1, snd ir)%nat) (enumerate_from i l)
    = enumerate_from (i + 1) l.
Proof.
  induction l as [|x l IH]; intros i; [reflexivity|].
  cbn. f_equal. apply (IH (S i)).
Qed.

Lemma count_loop {A} (l : list A) :
  forall acc k,
    fold_left (fun acc line => (fst acc ++ [(snd acc, line)], (snd acc + 1)%nat))
              l (acc, k)
    = (acc ++ enumerate_from k l, (k + List.length l)%nat).
Proof.
  induction l as [|x l IH]; intros acc k; cbn.
  - now rewrite app_nil_r, Nat.add_0_r.
  - rewrite IH, <- app_assoc. cbn. f_equal.
    + now rewrite Nat.add_1_r.
    + lia.
Qed.

Lemma enumerate_from_parts {A} (l : list A) :
  forall i,
    map fst (enumerate_from i l) = seq i (List.length l)
    /\ map snd (enumerate_from i l) = l.
Proof.
  induction l as [|x l IH]; intros i; [split; reflexivity|].
  destruct (IH (S i)) as [H1 H2]. cbn. now rewrite H1, H2.
Qed.

(** X13. The tables number their rows alike: the running counter of
    [export_to_html_all] and the [enumerate] of [show_result] and
    [export_to_html] give the same rows, numbered 1, 2, ... in the
    order of the list, none dropped or moved. *)
Theorem tables_number_rows_alike {A} (rows : list A) :
  count_rows rows = number_result rows
  /\ map fst (number_result rows) = seq 1 (List.length rows)
  /\ map snd (number_result rows) = rows.
Proof.
  assert (E : number_result rows = enumerate_from 1 rows)
    by apply (enumerate_from_shift rows 0).
  split; [|rewrite E; apply enumerate_from_parts].
  unfold count_rows. now rewrite count_loop, E.
Qed.


(** ** Searching after a full export *)

(** X14. The in-place sort of the full export does not change what a
    search returns: for a query that is a well-formed pattern and a
    catalogue without NaN ratio, [search_element] returns the same
    list before and after [export_to_html_all], so a search repeated
    in a session shows the same table. *)
Theorem export_keeps_search_results (re : regex_engine) (w : world)
    (fname query : str) (found : str -> bool) (s : state) :
  re query = Some found ->
  no_nan (data s) ->
  fst (search_element re query (snd (export_to_html_all w fname s)))
  = fst (search_element re query s).
Proof.
  intros E Hn.
  unfold search_element, bind, get_data, lift, ret.
  rewrite export_to_html_all_data.
  rewrite !(select_compiled re query found _ E). cbn [fst].
  f_equal.
  rewrite (sort_by_ratio_filter _ (sort_by_ratio (data s)))
    by now apply sort_by_ratio_no_nan.
  rewrite (sort_by_ratio_fixed (sort_by_ratio (data s)))
    by now apply sort_by_ratio_ascending.
  symmetry. now apply sort_by_ratio_filter.
Qed.

Lemma export_keeps_search_results_witness :
  fst (search_element Re.engine (u "мол")
         (snd (export_to_html_all milk_world all_file milk_catalogue)))
  = fst (search_element Re.engine (u "мол") milk_catalogue).
Proof.
  apply (export_keeps_search_results Re.engine milk_world all_file (u "мол")
           (Re.found (Re.lit (u "мол"))) milk_catalogue).
  - exact engine_mol.
  - repeat constructor.
Defined.
